(** * sar-bot: a chat agent with human-in-the-loop tools, deferred tasks
      and a checkpointed document-ingestion workflow

    Shallow embedding of [src/tools.ts] (the tool registry and the
    executions table) and [src/server.ts] (the fire handler
    [Chat.executeTask], [RAGWorkflow.run] and the [/text] endpoint),
    followed by the properties established about them.

    Effectful code is written in a small state-and-exception monad over a
    [World]: the durable state of the agent (messages, schedules), of the
    knowledge store (document table, vector index), of the workflow engine
    (step checkpoints), plus a ghost [trace] of the calls made to external
    collaborators, which is what the counting properties are stated on. *)

From Stdlib Require Import ZArith Floats.
From stdpp Require Import base option list strings gmap pretty.

Set Warnings "-register-all".

(** ** Values that cross the boundaries *)

(** A JavaScript value as a route handler sees it: parsed JSON, as
    [c.req.json()] hands it over, or [undefined], which is what reading
    an absent property gives.  The fields of a parsed object carry
    distinct keys.  Numbers that reach this code are only tested for
    truthiness. *)
Inductive JsValue :=
| JUndefined
| JNull
| JBool (b : bool)
| JNum (n : Z)
| JStr (s : string)
| JArr (items : list JsValue)
| JObj (fields : list (string * JsValue)).

(** What a [throw] can carry.  [JsError] is [new Error(message)];
    [InvalidSchedule] and [ScheduleNotFound] are the scheduler's two
    failures. *)
Inductive Exn :=
| JsError (message : string)
| TypeError (message : string)
| InvalidSchedule (message : string)
| ScheduleNotFound (id : string).

(** [`${error}`] *)
Definition Exn_toString (error : Exn) : string :=
  match error with
  | JsError message => "Error: " +:+ message
  | TypeError message => "TypeError: " +:+ message
  | InvalidSchedule message => "InvalidSchedule: " +:+ message
  | ScheduleNotFound id => "ScheduleNotFound: " +:+ id
  end.

(** [type DocumentRow = { id: number; text: string }] *)
Record DocumentRow := { doc_id : Z; doc_text : string }.

(** An embedding vector ([encoding_format: "float"]). *)
Definition Embedding : Type := list float.

(** One match of a vector query. *)
Record VectorMatch := { match_id : string; score : float }.

(** One item of the [input] array of [ai.responses.create]. *)
Record InputItem := { item_role : string; item_content : string }.

(** The message [executeTask] builds: [{ id, role, content, createdAt }]. *)
Record ChatMessage :=
  { msg_id : string; role : string; content : string; createdAt : Z }.

(** The [when] member of the schedule schema:
    [{type:"scheduled", date} | {type:"delayed", delayInSeconds} |
     {type:"cron", cron} | {type:"no-schedule"}].
    Dates and the clock are seconds since the epoch. *)
Inductive When :=
| Scheduled (date : Z)
| Delayed (delayInSeconds : Z)
| Cron (cron : string)
| NoSchedule.

(** [when.type] *)
Definition when_type (when : When) : string :=
  match when with
  | Scheduled _ => "scheduled"
  | Delayed _ => "delayed"
  | Cron _ => "cron"
  | NoSchedule => "no-schedule"
  end.

(** The first argument of [agent.schedule]: [Date | number | string]. *)
Inductive ScheduleInput :=
| AtDate (date : Z)
| AfterSeconds (seconds : Z)
| OnCron (expression : string).

Inductive ScheduleKind :=
| KScheduled
| KDelayed (delayInSeconds : Z)
| KCron (cron : string).

(** A registered schedule: [Schedule<string>]. *)
Record Schedule := {
  sched_id : string;
  callback : string;
  payload : string;
  time : Z;
  kind : ScheduleKind
}.

(** A workflow instance created through the [RAG_WORKFLOW] binding. *)
Record WorkflowInstance := { run_id : string; run_text : JsValue }.

(** What the workflow engine stores for a completed step. *)
Inductive StepValue :=
| SvRecord (record : DocumentRow)
| SvEmbedding (embedding : Embedding)
| SvVoid.

(** An HTTP response built with [c.text(body, status)]. *)
Record Response := { body : string; status : Z }.

(** ** Calls to external collaborators, as recorded in the trace *)
Inductive Event :=
| EvSchedule (when : ScheduleInput) (callback payload : string)
| EvGetSchedules
| EvCancelSchedule (id : string)
| EvEmbeddingsCreate (input : string)
| EvVectorizeQuery (vector : Embedding) (topK : nat)
| EvVectorizeUpsert (id : string) (values : Embedding)
| EvDbInsert (text : string)
| EvDbSelect (id : string)
| EvResponsesCreate (input : list InputItem)
| EvPersistMessages (msgs : list ChatMessage)
| EvModelInvoke
| EvWorkflowCreate (text : JsValue).

(** ** The world *)
Record World := {
  now : Z;                                (* the clock, in seconds *)
  id_counter : nat;                       (* how many ids were drawn *)
  crash_budget : option nat;              (* crash points still survived *)
  console : list string;                  (* console.log / console.error *)
  messages : list ChatMessage;            (* this.messages, persisted *)
  schedules : list Schedule;              (* the agent's active schedules *)
  docs : list DocumentRow;                (* env.DB, table docs *)
  vectors : gmap string Embedding;        (* env.VECTORIZE *)
  checkpoints : gmap string StepValue;    (* completed steps of the run *)
  workflow_runs : list WorkflowInstance;  (* env.RAG_WORKFLOW instances *)
  trace : list Event                      (* ghost: external calls so far *)
}.

Definition set_id_counter (n : nat) (w : World) : World :=
  {| now := now w; id_counter := n; crash_budget := crash_budget w;
     console := console w; messages := messages w; schedules := schedules w;
     docs := docs w; vectors := vectors w; checkpoints := checkpoints w;
     workflow_runs := workflow_runs w; trace := trace w |}.

Definition set_crash_budget (b : option nat) (w : World) : World :=
  {| now := now w; id_counter := id_counter w; crash_budget := b;
     console := console w; messages := messages w; schedules := schedules w;
     docs := docs w; vectors := vectors w; checkpoints := checkpoints w;
     workflow_runs := workflow_runs w; trace := trace w |}.

Definition set_console (c : list string) (w : World) : World :=
  {| now := now w; id_counter := id_counter w; crash_budget := crash_budget w;
     console := c; messages := messages w; schedules := schedules w;
     docs := docs w; vectors := vectors w; checkpoints := checkpoints w;
     workflow_runs := workflow_runs w; trace := trace w |}.

Definition set_messages (m : list ChatMessage) (w : World) : World :=
  {| now := now w; id_counter := id_counter w; crash_budget := crash_budget w;
     console := console w; messages := m; schedules := schedules w;
     docs := docs w; vectors := vectors w; checkpoints := checkpoints w;
     workflow_runs := workflow_runs w; trace := trace w |}.

Definition set_schedules (s : list Schedule) (w : World) : World :=
  {| now := now w; id_counter := id_counter w; crash_budget := crash_budget w;
     console := console w; messages := messages w; schedules := s;
     docs := docs w; vectors := vectors w; checkpoints := checkpoints w;
     workflow_runs := workflow_runs w; trace := trace w |}.

Definition set_docs (d : list DocumentRow) (w : World) : World :=
  {| now := now w; id_counter := id_counter w; crash_budget := crash_budget w;
     console := console w; messages := messages w; schedules := schedules w;
     docs := d; vectors := vectors w; checkpoints := checkpoints w;
     workflow_runs := workflow_runs w; trace := trace w |}.

Definition set_vectors (v : gmap string Embedding) (w : World) : World :=
  {| now := now w; id_counter := id_counter w; crash_budget := crash_budget w;
     console := console w; messages := messages w; schedules := schedules w;
     docs := docs w; vectors := v; checkpoints := checkpoints w;
     workflow_runs := workflow_runs w; trace := trace w |}.

Definition set_checkpoints (c : gmap string StepValue) (w : World) : World :=
  {| now := now w; id_counter := id_counter w; crash_budget := crash_budget w;
     console := console w; messages := messages w; schedules := schedules w;
     docs := docs w; vectors := vectors w; checkpoints := c;
     workflow_runs := workflow_runs w; trace := trace w |}.

Definition set_workflow_runs (r : list WorkflowInstance) (w : World) : World :=
  {| now := now w; id_counter := id_counter w; crash_budget := crash_budget w;
     console := console w; messages := messages w; schedules := schedules w;
     docs := docs w; vectors := vectors w; checkpoints := checkpoints w;
     workflow_runs := r; trace := trace w |}.

Definition set_trace (t : list Event) (w : World) : World :=
  {| now := now w; id_counter := id_counter w; crash_budget := crash_budget w;
     console := console w; messages := messages w; schedules := schedules w;
     docs := docs w; vectors := vectors w; checkpoints := checkpoints w;
     workflow_runs := workflow_runs w; trace := t |}.

(** ** The monad of effectful code *)

(** How a call ends: it returns, it throws, or the process dies. *)
Inductive Outcome (A : Type) :=
| Returned (a : A)
| Threw (error : Exn)
| Crashed.
Arguments Returned {A} a.
Arguments Threw {A} error.
Arguments Crashed {A}.

Definition Exec (A : Type) : Type := World -> Outcome A * World.

Definition ret {A} (a : A) : Exec A := fun w => (Returned a, w).

Definition bind {A B} (m : Exec A) (k : A -> Exec B) : Exec B :=
  fun w =>
    match m w with
    | (Returned a, w') => k a w'
    | (Threw error, w') => (Threw error, w')
    | (Crashed, w') => (Crashed, w')
    end.

Definition throw {A} (error : Exn) : Exec A := fun w => (Threw error, w).

(** [try { body } catch (error) { handler }]: a dead process catches
    nothing. *)
Definition try_catch {A} (body : Exec A) (handler : Exn -> Exec A) : Exec A :=
  fun w =>
    match body w with
    | (Threw error, w') => handler error w'
    | r => r
    end.

(** The monad is used through the [x ← m; k] and [m;; k] notations. *)
#[global] Instance Exec_ret : MRet Exec := @ret.
#[global] Instance Exec_bind : MBind Exec := fun A B k m => bind m k.

Definition gets {A} (f : World -> A) : Exec A := fun w => (Returned (f w), w).
Definition modify (f : World -> World) : Exec unit := fun w => (Returned tt, f w).

(** A point where the process may die: it dies there once the budget is
    used up; [None] is a process that does not die. *)
Definition crash_point : Exec unit :=
  fun w =>
    match crash_budget w with
    | None => (Returned tt, w)
    | Some O => (Crashed, w)
    | Some (S n) => (Returned tt, set_crash_budget (Some n) w)
    end.

Definition emit (e : Event) : Exec unit :=
  modify (fun w => set_trace (trace w ++ [e]) w).

Definition console_log (line : string) : Exec unit :=
  modify (fun w => set_console (console w ++ [line]) w).

Definition console_error (line : string) : Exec unit :=
  modify (fun w => set_console (console w ++ [line]) w).

(** [Date.now()] / [new Date()] *)
Definition Date_now : Exec Z := gets now.

(** The double quote and the line feed, which string literals here do not
    spell. *)
Definition dquote : string := String (Ascii.ascii_of_nat 34) EmptyString.
Definition newline : string := String (Ascii.ascii_of_nat 10) EmptyString.

(** [notes.join(sep)] *)
Fixpoint join (sep : string) (parts : list string) : string :=
  match parts with
  | [] => EmptyString
  | [p] => p
  | p :: rest => p +:+ sep +:+ join sep rest
  end.

(** ** External collaborators

    The pure part of every collaborator this code talks to; what they
    compute is outside the system (the spec lists them as excluded), so
    the program is parameterised by it. *)
Class Services := {
  (** the cron evaluator: next fire time after the given instant, [None]
      for a malformed expression *)
  cron_next : string -> Z -> option Z;
  (** [generateId()] and the ids the bindings hand out *)
  fresh_id : nat -> string;
  (** [`${date}`] *)
  Date_toString : Z -> string;
  (** [INSERT INTO docs (text) VALUES (?) RETURNING *]: the table
      afterwards and the [results] *)
  d1_insert_returning :
    list DocumentRow -> string -> list DocumentRow * list DocumentRow;
  (** [SELECT * FROM docs WHERE id = ?]: the [results], if any *)
  d1_select_by_id : list DocumentRow -> string -> option (list DocumentRow);
  (** [ai.embeddings.create]: the [embedding] of each entry of [data] *)
  embeddings_create : string -> list Embedding;
  (** [env.VECTORIZE.query]: the [matches], if any *)
  vectorize_query :
    gmap string Embedding -> Embedding -> nat -> option (list VectorMatch);
  (** [ai.responses.create]: the [output_text] *)
  responses_create : list InputItem -> string
}.

(** A tool as [tool({ description, parameters, execute? })] builds it.
    [Params] is the type the [parameters] schema validates, [Output] what
    [execute] resolves to. *)
Record Tool := {
  description : string;
  Params : Type;
  Output : Type;
  execute : option (Params -> Exec Output)
}.

(** The two classes of the tool registry (spec 4.1). *)
Inductive Classification := Auto | RequiresConfirmation.

(** Modelled from the spec: the registry's [classify] is no function of
    [tools.ts] or [server.ts]; the spec (4.1, 8) makes the presence of the
    execution function the discriminator, as the comments of [tools.ts]
    do. *)
Definition classify (t : Tool) : Classification :=
  match execute t with
  | Some _ => Auto
  | None => RequiresConfirmation
  end.

Section Program.
Context `{!Services}.

(** *** Calls through the bindings *)

Definition generateId : Exec string :=
  n ← gets id_counter;
  modify (set_id_counter (S n));;
  ret (fresh_id n).

Definition ai_embeddings_create (input : string) : Exec (list Embedding) :=
  emit (EvEmbeddingsCreate input);;
  ret (embeddings_create input).

Definition ai_responses_create (input : list InputItem) : Exec string :=
  emit (EvResponsesCreate input);;
  ret (responses_create input).

Definition VECTORIZE_query (vector : Embedding) (topK : nat)
  : Exec (option (list VectorMatch)) :=
  emit (EvVectorizeQuery vector topK);;
  gets (fun w => vectorize_query (vectors w) vector topK).

Definition VECTORIZE_upsert (id : string) (values : Embedding) : Exec unit :=
  emit (EvVectorizeUpsert id values);;
  modify (fun w => set_vectors (<[id := values]> (vectors w)) w).

Definition DB_insert_returning (text : string) : Exec (list DocumentRow) :=
  emit (EvDbInsert text);;
  answer ← gets (fun w => d1_insert_returning (docs w) text);
  modify (set_docs answer.1);;
  ret answer.2.

Definition DB_select_by_id (id : string) : Exec (option (list DocumentRow)) :=
  emit (EvDbSelect id);;
  gets (fun w => d1_select_by_id (docs w) id).

(** [env.RAG_WORKFLOW.create({ params: { text } })] *)
Definition RAG_WORKFLOW_create (text : JsValue) : Exec WorkflowInstance :=
  emit (EvWorkflowCreate text);;
  id ← generateId;
  let instance := {| run_id := id; run_text := text |} in
  modify (fun w => set_workflow_runs (workflow_runs w ++ [instance]) w);;
  ret instance.

(** *** The agent's scheduler

    [agent.schedule], [agent.getSchedules] and [agent.cancelSchedule]
    belong to the agents SDK, an external library; they follow spec 4.3. *)

(** Modelled from the spec: the registration step of [agent.schedule]
    (agents SDK, an external library); it draws the id the spec says
    [schedule] returns and appends the spec to the active ones. *)
Definition register (callback payload : string) (time : Z) (kind : ScheduleKind)
  : Exec Schedule :=
  id ← generateId;
  let s := {| sched_id := id; callback := callback; payload := payload;
              time := time; kind := kind |} in
  modify (fun w => set_schedules (schedules w ++ [s]) w);;
  ret s.

(** Modelled from the spec: [agent.schedule] (agents SDK, an external
    library).  Spec 4.3: an absolute timestamp is used verbatim, a delay
    becomes now + delay, a cron expression is validated and its next fire
    time computed by the external evaluator, [InvalidSchedule] when it is
    malformed. *)
Definition agent_schedule (when : ScheduleInput) (callback payload : string)
  : Exec Schedule :=
  emit (EvSchedule when callback payload);;
  match when with
  | AtDate date => register callback payload date KScheduled
  | AfterSeconds seconds =>
      t ← Date_now;
      register callback payload (t + seconds)%Z (KDelayed seconds)
  | OnCron expression =>
      t ← Date_now;
      match cron_next expression t with
      | Some next => register callback payload next (KCron expression)
      | None => throw (InvalidSchedule expression)
      end
  end.

(** Modelled from the spec: [agent.getSchedules] (agents SDK, an external
    library).  Spec 4.3: [list()] gives the ordered active specs. *)
Definition agent_getSchedules : Exec (list Schedule) :=
  emit EvGetSchedules;;
  gets schedules.

Definition has_id (id : string) (s : Schedule) : bool :=
  bool_decide (sched_id s = id).

(** Modelled from the spec: [agent.cancelSchedule] (agents SDK, an external
    library).  Spec 4.3: [cancel(id)] removes the spec and fails with
    [NotFound] for an unknown id. *)
Definition agent_cancelSchedule (id : string) : Exec unit :=
  emit (EvCancelSchedule id);;
  known ← gets (fun w => existsb (has_id id) (schedules w));
  if known : bool
  then modify (fun w =>
         set_schedules (List.filter (fun s => negb (has_id id s)) (schedules w)) w)
  else throw (ScheduleNotFound id).

(** The schedule [register] adds for a call of the scheduling tool made
    in world [w]. *)
Definition registered (w : World) (payload : string) (time : Z) (kind : ScheduleKind)
  : Schedule :=
  {| sched_id := fresh_id (id_counter w); callback := "executeTask";
     payload := payload; time := time; kind := kind |}.

(** ** [src/tools.ts] *)

(** Weather information tool that requires human confirmation: the
    [execute] function is omitted; the implementation is in [executions]
    below. *)
Definition getWeatherInformation : Tool :=
  {| description := "show the weather in a given city to the user";
     Params := string;               (* { city } *)
     Output := string;
     execute := None |}.

(** Local time tool that executes automatically. *)
Definition getLocalTime_execute (location : string) : Exec string :=
  console_log ("Getting local time for " +:+ location);;
  ret "10am".

Definition getLocalTime : Tool :=
  {| description := "get the local time for a specified location";
     Params := string;               (* { location } *)
     Output := string;
     execute := Some getLocalTime_execute |}.

Definition systemPrompt : string :=
  "When answering the question or responding, use the context provided, if it is provided and relevant.".

Definition developer (content : string) : InputItem :=
  {| item_role := "developer"; item_content := content |}.

Definition user (content : string) : InputItem :=
  {| item_role := "user"; item_content := content |}.

(** [notes.length] as a condition *)
Definition nonempty {A} (l : list A) : bool :=
  match l with [] => false | _ :: _ => true end.

(** A string as a condition: the empty string is falsy. *)
Definition truthy_string (s : string) : bool :=
  match s with EmptyString => false | String _ _ => true end.

Definition getRAGTool_execute (query : string) : Exec string :=
  (* Build query *)
  embedding ← ai_embeddings_create query;
  vectors ← match embedding with
            | first :: _ => ret first
            | [] => throw (TypeError "Cannot read properties of undefined (reading 'embedding')")
            end;
  (* Query vector store *)
  vectoryQuery ← VECTORIZE_query vectors 5;
  vecId ← match vectoryQuery with
          | Some (first :: _) => ret (Some (match_id first))
          | _ =>
              console_log "No matching vector found or vectoryQuery.matches is empty";;
              ret None
          end;
  (* Retrieve notes *)
  notes ← match vecId with
          | Some id =>
              if truthy_string id
              then results ← DB_select_by_id id;
                   ret match results with
                       | Some rows => map doc_text rows
                       | None => []
                       end
              else ret []
          | None => ret []
          end;
  let contextMessage :=
    if nonempty notes
    then "Context:" +:+ newline +:+ join newline (map (fun note => "- " +:+ note) notes)
    else EmptyString in
  r ← ai_responses_create
        ((if nonempty notes then [developer contextMessage] else [])
         ++ [developer systemPrompt; user query]);
  ret r.

Definition getRAGTool : Tool :=
  {| description := "get additional context from knowledge base";
     Params := string;               (* { query } *)
     Output := string;
     execute := Some getRAGTool_execute |}.

(** [`${input}`] for the value handed to the scheduler *)
Definition input_toString (input : ScheduleInput) : string :=
  match input with
  | AtDate date => Date_toString date
  | AfterSeconds seconds => pretty seconds
  | OnCron expression => expression
  end.

Definition throwError {A} (msg : string) : Exec A := throw (JsError msg).

(** The chain of conditionals on [when.type] is the [match]; its last arm
    is the [throwError] arm, which the early return makes unreachable.
    The call of [agent.schedule] sits in the [try] as in the source, and a
    failure of the scheduler is one the [catch] sees. *)
Definition scheduleTask_execute (args : When * string) : Exec string :=
  let '(when, description) := args in
  if String.eqb (when_type when) "no-schedule"
  then ret "Not a valid schedule input"
  else
    input ← match when with
            | Scheduled date => ret (AtDate date)                        (* scheduled *)
            | Delayed delayInSeconds => ret (AfterSeconds delayInSeconds) (* delayed *)
            | Cron cron => ret (OnCron cron)                             (* cron *)
            | NoSchedule => throwError "not a valid schedule input"
            end;
    failed ← try_catch
               (agent_schedule input "executeTask" description;;
                ret None)
               (fun error =>
                  console_error ("error scheduling task " +:+ Exn_toString error);;
                  ret (Some ("Error scheduling task: " +:+ Exn_toString error)));
    match failed with
    | Some message => ret message
    | None =>
        ret ("Task scheduled for type " +:+ dquote +:+ when_type when +:+ dquote
             +:+ " : " +:+ input_toString input)
    end.

Definition scheduleTask : Tool :=
  {| description := "A tool to schedule a task to be executed at a later time";
     Params := When * string;        (* { when, description } *)
     Output := string;
     execute := Some scheduleTask_execute |}.

(** Tool to list all scheduled tasks. *)
Definition getScheduledTasks_execute (_ : unit) : Exec (string + list Schedule) :=
  try_catch
    (tasks ← agent_getSchedules;
     if negb (nonempty tasks)
     then ret (inl "No scheduled tasks found.")
     else ret (inr tasks))
    (fun error =>
       console_error ("Error listing scheduled tasks " +:+ Exn_toString error);;
       ret (inl ("Error listing scheduled tasks: " +:+ Exn_toString error))).

Definition getScheduledTasks : Tool :=
  {| description := "List all tasks that have been scheduled";
     Params := unit;                 (* { } *)
     Output := string + list Schedule;
     execute := Some getScheduledTasks_execute |}.

(** Tool to cancel a scheduled task by its ID. *)
Definition cancelScheduledTask_execute (taskId : string) : Exec string :=
  try_catch
    (agent_cancelSchedule taskId;;
     ret ("Task " +:+ taskId +:+ " has been successfully canceled."))
    (fun error =>
       console_error ("Error canceling scheduled task " +:+ Exn_toString error);;
       ret ("Error canceling task " +:+ taskId +:+ ": " +:+ Exn_toString error)).

Definition cancelScheduledTask : Tool :=
  {| description := "Cancel a scheduled task using its ID";
     Params := string;               (* { taskId } *)
     Output := string;
     execute := Some cancelScheduledTask_execute |}.

(** Export all available tools, in the order of the object literal. *)
Definition tool_entries : list (string * Tool) :=
  [ ("getWeatherInformation", getWeatherInformation);
    ("getLocalTime", getLocalTime);
    ("scheduleTask", scheduleTask);
    ("getScheduledTasks", getScheduledTasks);
    ("cancelScheduledTask", cancelScheduledTask);
    ("getRAGTool", getRAGTool) ].

Definition tools : gmap string Tool := list_to_map tool_entries.

(** Implementation of confirmation-required tools. *)
Definition executions_getWeatherInformation (city : string) : Exec string :=
  console_log ("Getting weather information for " +:+ city);;
  ret ("The weather in " +:+ city +:+ " is sunny").

Definition executions : gmap string (string -> Exec string) :=
  {[ "getWeatherInformation" := executions_getWeatherInformation ]}.

(** ** [src/server.ts] *)

(** *** The chat turn *)

(** [const allTools = { ...tools, ...this.mcp.unstable_getAITools() }]:
    the static tools, with the dynamically discovered ones written over
    them.  [mcp_tools] is what [unstable_getAITools()] returned. *)
Definition allTools (mcp_tools : gmap string Tool) : gmap string Tool :=
  mcp_tools ∪ tools.

(** *** The fire handler *)

(** Modelled from the spec: [saveMessages] belongs to [AIChatAgent], an
    external library.  Spec 4.3: the message is durably appended
    before any model invocation proceeds; the process may die between the
    two. *)
Definition saveMessages (msgs : list ChatMessage) : Exec unit :=
  emit (EvPersistMessages msgs);;
  modify (set_messages msgs);;
  crash_point;;
  emit EvModelInvoke.

Definition executeTask (description : string) (task : Schedule) : Exec unit :=
  this_messages ← gets messages;
  id ← generateId;
  createdAt ← Date_now;
  saveMessages
    (this_messages ++
     [ {| msg_id := id;
          role := "user";
          content := "Running scheduled task: " +:+ description;
          createdAt := createdAt |} ]).

(** Modelled from the spec: when a fire is due (agents SDK, an external
    library).  Spec 4.3: a spec fires when its fire time elapses. *)
Definition is_due (t : Z) (s : Schedule) : bool := (time s <=? t)%Z.

(** Modelled from the spec: what becomes of a fired spec (agents SDK, an
    external library).  Spec 4.3: a one-off spec is removed after firing, a cron
    spec recomputes and persists its next fire time. *)
Definition reschedule (t : Z) (s : Schedule) : list Schedule :=
  match kind s with
  | KCron cron =>
      match cron_next cron t with
      | Some next =>
          [ {| sched_id := sched_id s; callback := callback s;
               payload := payload s; time := next; kind := kind s |} ]
      | None => []
      end
  | _ => []
  end.

Definition after_fire (s : Schedule) : Exec unit :=
  t ← Date_now;
  modify (fun w =>
    set_schedules
      (flat_map (fun s' => if has_id (sched_id s) s' then reschedule t s' else [s'])
                (schedules w)) w).

(** Modelled from the spec: delivery of one fire (agents SDK, an external
    library).  Spec 4.3: the bound callback is invoked once with its
    payload, then the spec is removed or rescheduled.  The only callback
    this agent defines is [executeTask]. *)
Definition fire (s : Schedule) : Exec unit :=
  (if String.eqb (callback s) "executeTask"
   then executeTask (payload s) s
   else throw (TypeError ("this." +:+ callback s +:+ " is not a function")));;
  after_fire s.

Fixpoint fire_all (due : list Schedule) : Exec unit :=
  match due with
  | [] => ret tt
  | s :: rest => fire s;; fire_all rest
  end.

(** Modelled from the spec: the alarm that delivers every fire that is
    due (agents SDK, an external library). *)
Definition alarm : Exec unit :=
  t ← Date_now;
  due ← gets (fun w => List.filter (is_due t) (schedules w));
  fire_all due.

(** *** The ingestion workflow *)

(** How a step's result is stored and read back. *)
Class Checkpointable (A : Type) := {
  to_step : A -> StepValue;
  of_step : StepValue -> option A
}.

#[global] Instance DocumentRow_checkpointable : Checkpointable DocumentRow :=
  {| to_step := SvRecord;
     of_step v := match v with SvRecord r => Some r | _ => None end |}.

#[global] Instance Embedding_checkpointable : Checkpointable Embedding :=
  {| to_step := SvEmbedding;
     of_step v := match v with SvEmbedding e => Some e | _ => None end |}.

#[global] Instance unit_checkpointable : Checkpointable unit :=
  {| to_step _ := SvVoid;
     of_step v := match v with SvVoid => Some tt | _ => None end |}.

(** Modelled from the spec: [step.do] belongs to the workflow engine,
    an external service.  Spec 4.4: a step already marked complete
    is skipped and its checkpointed output reused; otherwise the callback
    runs and its result is checkpointed.  The process may die before a
    step starts, that is, after the previous one completed.  A thrown
    error leaves the step incomplete and ends the run (the retry policy is
    the engine's). *)
Definition step_do {A} `{!Checkpointable A} (name : string) (callback : Exec A)
  : Exec A :=
  stored ← gets (fun w => checkpoints w !! name ≫= of_step);
  match stored with
  | Some a => ret a
  | None =>
      crash_point;;
      a ← callback;
      modify (fun w => set_checkpoints (<[name := to_step a]> (checkpoints w)) w);;
      ret a
  end.

Definition RAGWorkflow_run (text : string) : Exec unit :=
  record ← step_do "create database record"
             (results ← DB_insert_returning text;
              match head results with
              | None => throw (JsError "Failed to create document")
              | Some record => ret record
              end);
  embedding ← step_do "generate embedding"
                (embedding ← ai_embeddings_create text;
                 match embedding with
                 | first :: _ => ret first
                 | [] => throw (TypeError "Cannot read properties of undefined (reading 'embedding')")
                 end);
  (* [if (!record) return;] never fires: a row is an object, hence truthy *)
  step_do "insert vector"
    (VECTORIZE_upsert (pretty (doc_id record)) embedding).

(** One execution of the run by a process that survives [budget] more
    crash points ([None]: it does not die). *)
Definition attempt (budget : option nat) (text : string) : Exec unit :=
  modify (set_crash_budget budget);;
  RAGWorkflow_run text.

(** The run driven through a series of processes that die, each resumed
    by the next, and a last one that does not.  The outcome of a dead
    process is dropped; the durable world is what the next one sees. *)
Fixpoint resume (budgets : list nat) (text : string) : Exec unit :=
  match budgets with
  | [] => attempt None text
  | b :: rest => fun w => resume rest text (attempt (Some b) text w).2
  end.

(** *** The ingestion trigger *)

(** [const { text } = body]: destructuring [null] or [undefined] throws;
    a property that is absent, or any property of a primitive or of an
    array, is [undefined]. *)
Definition destructure (key : string) (v : JsValue) : Exec JsValue :=
  match v with
  | JUndefined =>
      throw (TypeError ("Cannot destructure property '" +:+ key +:+ "' of undefined"))
  | JNull =>
      throw (TypeError ("Cannot destructure property '" +:+ key +:+ "' of null"))
  | JObj fields =>
      ret (default JUndefined
             (snd <$> List.find (fun kv => String.eqb (fst kv) key) fields))
  | _ => ret JUndefined
  end.

(** A value as a condition. *)
Definition truthy (v : JsValue) : bool :=
  match v with
  | JUndefined | JNull => false
  | JBool b => b
  | JNum n => negb (n =? 0)%Z
  | JStr s => truthy_string s
  | JArr _ | JObj _ => true
  end.

Definition c_text (body : string) (status : Z) : Response :=
  {| body := body; status := status |}.

(** [app.post("/text", ...)], applied to the parsed body. *)
Definition post_text (body : JsValue) : Exec Response :=
  text ← destructure "text" body;
  if negb (truthy text) then ret (c_text "Missing text" 400)
  else
    RAG_WORKFLOW_create text;;
    ret (c_text "Create note" 201).

End Program.

(** ** The state of an ingestion run between steps

    For a run whose insert returned [row] first and whose embedding is
    [vector]: the external calls of its three steps, the checkpoints
    present once the first [n] steps are complete, and what the durable
    world looks like at that point, relative to the world [w0] the run
    started in. *)
Definition effects_of (text : string) (row : DocumentRow) (vector : Embedding)
  : list Event :=
  [ EvDbInsert text; EvEmbeddingsCreate text;
    EvVectorizeUpsert (pretty (doc_id row)) vector ].

Definition completed (n : nat) (row : DocumentRow) (vector : Embedding)
  : gmap string StepValue :=
  match n with
  | 0 => ∅
  | 1 => {[ "create database record" := SvRecord row ]}
  | 2 => <[ "generate embedding" := SvEmbedding vector ]>
           {[ "create database record" := SvRecord row ]}
  | _ => <[ "insert vector" := SvVoid ]>
           (<[ "generate embedding" := SvEmbedding vector ]>
              {[ "create database record" := SvRecord row ]})
  end.

Record progressed (w0 : World) (text : string) (table : list DocumentRow)
    (row : DocumentRow) (vector : Embedding) (n : nat) (w : World) : Prop := {
  prog_bound : n <= 3;
  prog_checkpoints : checkpoints w = completed n row vector;
  prog_trace : trace w = trace w0 ++ take n (effects_of text row vector);
  prog_docs : docs w = match n with 0 => docs w0 | _ => table end;
  prog_vectors :
    vectors w = match n with
                | 0 | 1 | 2 => vectors w0
                | _ => <[pretty (doc_id row) := vector]> (vectors w0)
                end
}.

(** The step [name] is complete in [w]: its result is checkpointed, in
    the form the step reads back. *)
Definition step_complete (A : Type) `{!Checkpointable A} (name : string) (w : World)
  : Prop :=
  is_Some (checkpoints w !! name ≫= of_step (A := A)).

(** The external call [e] belongs to a step that is complete in [w]. *)
Definition repeats_completed_step (w : World) (e : Event) : Prop :=
  match e with
  | EvDbInsert _ => step_complete DocumentRow "create database record" w
  | EvEmbeddingsCreate _ => step_complete Embedding "generate embedding" w
  | EvVectorizeUpsert _ _ => step_complete unit "insert vector" w
  | _ => False
  end.

(** ** The confirmation resolver

    [processToolCalls] lives in [utils.ts], whose text is not available;
    [server.ts] only imports and calls it.  The definitions below follow
    spec 3 and 4.2: per invocation still pending, in message order,
    - an auto-classified tool with no result yet is executed now, its
      result or caught error captured as the terminal result;
    - a confirmation-required tool with no decision is left untouched;
    - a denied one gets a fixed declined result, its execution function is
      never called;
    - an approved one has its registered execution function invoked with
      the original arguments, result or error captured as terminal.
    The spec is silent on a tool name that is not in the mapping (left
    untouched here) and on an approved tool with no registered execution
    function (an error result here).

    Besides the updated history the resolver returns the ghost list of the
    calls it made to execution functions, in order. *)
Inductive InvocationState := pending | confirmed | denied | executed | error.

Inductive ResultPayload (Result : Type) :=
| ResultValue (value : Result)
| ResultError (error : Exn)
| Declined.
Arguments ResultValue {Result} value.
Arguments ResultError {Result} error.
Arguments Declined {Result}.

Record ToolInvocation (Args Result : Type) := {
  inv_id : string;
  toolName : string;
  args : Args;
  state : InvocationState;
  result : option (ResultPayload Result)
}.
Arguments inv_id {Args Result}.
Arguments toolName {Args Result}.
Arguments args {Args Result}.
Arguments state {Args Result}.
Arguments result {Args Result}.

Record ConversationMessage (Args Result : Type) := {
  cm_id : string;
  cm_role : string;
  cm_content : string;
  toolInvocations : list (ToolInvocation Args Result);
  cm_createdAt : Z
}.
Arguments cm_id {Args Result}.
Arguments cm_role {Args Result}.
Arguments cm_content {Args Result}.
Arguments toolInvocations {Args Result}.
Arguments cm_createdAt {Args Result}.

(** One call of an execution function, made on behalf of an invocation. *)
Record Call (Args : Type) := {
  call_id : string;
  call_tool : string;
  call_args : Args
}.
Arguments call_id {Args}.
Arguments call_tool {Args}.
Arguments call_args {Args}.

(** Run [f] on every element in order, collecting the calls made. *)
Fixpoint traverse {A B C} (f : A -> Exec (B * list C)) (l : list A)
  : Exec (list B * list C) :=
  match l with
  | [] => ret ([], [])
  | a :: rest =>
      first ← f a;
      others ← traverse f rest;
      ret (first.1 :: others.1, first.2 ++ others.2)
  end.

Section Resolver.
Context {Args Result : Type}.
(** the active tool mapping: each tool with its execution function, if it
    has one *)
Context (active : gmap string (option (Args -> Exec Result))).
(** the execution table for confirmation-required tools *)
Context (table : gmap string (Args -> Exec Result)).
(** invocation id -> approved? *)
Context (decisions : gmap string bool).

Definition settle (inv : ToolInvocation Args Result) (s : InvocationState)
    (r : ResultPayload Result) : ToolInvocation Args Result :=
  {| inv_id := inv_id inv; toolName := toolName inv; args := args inv;
     state := s; result := Some r |}.

Definition call_of (inv : ToolInvocation Args Result) : Call Args :=
  {| call_id := inv_id inv; call_tool := toolName inv; call_args := args inv |}.

(** Modelled from the spec: the execution of one invocation inside
    [processToolCalls] ([utils.ts], not available).  Spec 4.2: the
    function is invoked with the original arguments, and its result or
    caught error is captured as the terminal result. *)
Definition run_captured (f : Args -> Exec Result) (inv : ToolInvocation Args Result)
  : Exec (ToolInvocation Args Result * list (Call Args)) :=
  try_catch
    (value ← f (args inv);
     ret (settle inv executed (ResultValue value), [call_of inv]))
    (fun caught => ret (settle inv error (ResultError caught), [call_of inv])).

(** Modelled from the spec: the four cases of [processToolCalls]
    ([utils.ts], not available) for one invocation, spec 4.2. *)
Definition resolve_invocation (inv : ToolInvocation Args Result)
  : Exec (ToolInvocation Args Result * list (Call Args)) :=
  match state inv with
  | pending =>
      match active !! toolName inv with
      | None => ret (inv, [])
      | Some (Some f) =>
          match result inv with
          | None => run_captured f inv
          | Some _ => ret (inv, [])
          end
      | Some None =>
          match decisions !! inv_id inv with
          | None => ret (inv, [])
          | Some false => ret (settle inv denied Declined, [])
          | Some true =>
              match table !! toolName inv with
              | Some f => run_captured f inv
              | None =>
                  ret (settle inv error
                         (ResultError (JsError "No execution function registered")), [])
              end
          end
      end
  | _ => ret (inv, [])
  end.

(** Modelled from the spec: [processToolCalls] ([utils.ts], not
    available) on the invocations attached to one message, in order. *)
Definition resolve_message (m : ConversationMessage Args Result)
  : Exec (ConversationMessage Args Result * list (Call Args)) :=
  resolved ← traverse resolve_invocation (toolInvocations m);
  ret ({| cm_id := cm_id m; cm_role := cm_role m; cm_content := cm_content m;
          toolInvocations := resolved.1; cm_createdAt := cm_createdAt m |},
       resolved.2).

(** Modelled from the spec: [processToolCalls] ([utils.ts], not
    available) on the full history, in message order (spec 4.2). *)
Definition processToolCalls (messages : list (ConversationMessage Args Result))
  : Exec (list (ConversationMessage Args Result) * list (Call Args)) :=
  traverse resolve_message messages.

(** [n] resolver passes, each over the history the previous one returned. *)
Fixpoint passes (n : nat) (messages : list (ConversationMessage Args Result))
  : Exec (list (ConversationMessage Args Result) * list (Call Args)) :=
  match n with
  | O => ret (messages, [])
  | S k =>
      first ← processToolCalls messages;
      others ← passes k first.1;
      ret (others.1, first.2 ++ others.2)
  end.

(** The invocation at position [j] of message [i]. *)
Definition invocation_at (messages : list (ConversationMessage Args Result))
    (i j : nat) : option (ToolInvocation Args Result) :=
  messages !! i ≫= fun m => toolInvocations m !! j.

(** The ids of all invocations of a history, in order. *)
Definition invocation_ids (messages : list (ConversationMessage Args Result))
  : list string :=
  messages ≫= fun m => inv_id <$> toolInvocations m.

(** An invocation a resolver pass leaves alone: it is no longer pending,
    or it waits for a decision that is not there. *)
Definition settled (inv : ToolInvocation Args Result) : Prop :=
  state inv <> pending
  \/ (active !! toolName inv = Some None /\ decisions !! inv_id inv = None).

(** The calls made on behalf of invocation [id]. *)
Definition calls_for (id : string) (calls : list (Call Args)) : list (Call Args) :=
  filter (fun c => call_id c = id) calls.

End Resolver.

(** ** What a call leaves alone

    The knowledge store, the persisted conversation and the workflow state
    are the same in [w'] as in [w]. *)
Definition same_store (w w' : World) : Prop :=
  docs w' = docs w
  /\ vectors w' = vectors w
  /\ messages w' = messages w
  /\ checkpoints w' = checkpoints w
  /\ workflow_runs w' = workflow_runs w.

(** ** A concrete set of collaborators, to run the definitions on *)

(** A table that numbers its rows from 1 and returns the inserted row. *)
Definition sample_insert (table : list DocumentRow) (text : string)
  : list DocumentRow * list DocumentRow :=
  let row := {| doc_id := Z.of_nat (S (length table)); doc_text := text |} in
  (table ++ [row], [row]).

Definition sample_select (table : list DocumentRow) (id : string)
  : option (list DocumentRow) :=
  Some (List.filter (fun row => String.eqb (pretty (doc_id row)) id) table).

Definition sample_matches (index : gmap string Embedding) (topK : nat)
  : list VectorMatch :=
  take topK ((fun kv => {| match_id := kv.1; score := 1%float |}) <$> map_to_list index).

Definition sample_services : Services :=
  {| cron_next expression t :=
       if String.eqb expression "* * * * *" then Some (t + 60)%Z else None;
     fresh_id n := "id" +:+ pretty n;
     Date_toString date := pretty date;
     d1_insert_returning := sample_insert;
     d1_select_by_id := sample_select;
     embeddings_create input := [[0.5%float; 0.25%float]];
     vectorize_query index vector topK := Some (sample_matches index topK);
     responses_create input := "answer" |}.

(** The same collaborators, with a persistence layer that returns no row. *)
Definition silent_db_services : Services :=
  {| cron_next := @cron_next sample_services;
     fresh_id := @fresh_id sample_services;
     Date_toString := @Date_toString sample_services;
     d1_insert_returning table text := (table, []);
     d1_select_by_id := sample_select;
     embeddings_create := @embeddings_create sample_services;
     vectorize_query := @vectorize_query sample_services;
     responses_create := @responses_create sample_services |}.

(** The same collaborators, with an embedding service that returns no
    data. *)
Definition no_embedding_services : Services :=
  {| cron_next := @cron_next sample_services;
     fresh_id := @fresh_id sample_services;
     Date_toString := @Date_toString sample_services;
     d1_insert_returning := sample_insert;
     d1_select_by_id := sample_select;
     embeddings_create input := [];
     vectorize_query := @vectorize_query sample_services;
     responses_create := @responses_create sample_services |}.

Definition world0 : World :=
  {| now := 1000; id_counter := 0; crash_budget := None; console := [];
     messages := []; schedules := []; docs := []; vectors := ∅;
     checkpoints := ∅; workflow_runs := []; trace := [] |}.

(** A history with one pending request for the weather, the mapping
    that classifies it, and the approval of the request. *)
Definition sample_invocation : ToolInvocation string string :=
  {| inv_id := "call-1"; toolName := "getWeatherInformation"; args := "Paris";
     state := pending; result := None |}.

Definition sample_history : list (ConversationMessage string string) :=
  [ {| cm_id := "m1"; cm_role := "assistant"; cm_content := "Let me check.";
       toolInvocations := [sample_invocation]; cm_createdAt := 1000 |} ].

Definition sample_active : gmap string (option (string -> Exec string)) :=
  <[ "getLocalTime" := Some getLocalTime_execute ]>
    {[ "getWeatherInformation" := None ]}.

Definition sample_decisions : gmap string bool := {[ "call-1" := true ]}.

(** A world with one delayed task registered through the scheduling tool. *)
Definition world_with_task : World :=
  (@scheduleTask_execute sample_services (Delayed 5, "water the plants") world0).2.

Definition sample_task : Schedule :=
  {| sched_id := "id0"; callback := "executeTask"; payload := "water the plants";
     time := 1005; kind := KDelayed 5 |}.

(** A world in which the note [hello] has been ingested. *)
Definition world_with_note : World :=
  (@resume sample_services [] "hello" world0).2.

(** A dynamically discovered tool that takes the name of the weather tool
    and brings its own [execute]. *)
Definition sample_mcp_tools : gmap string Tool :=
  {[ "getWeatherInformation" := getLocalTime ]}.

(** Unfold one layer of the monad. *)
Ltac exec_step :=
  unfold mbind, mret, Exec_bind, Exec_ret, bind, ret, throw, try_catch,
    gets, modify, emit, console_log, console_error, Date_now in *.

(** ** Properties *)

Section ToolProperties.
Context `{!Services}.

(** C5: the scheduling tool makes exactly one call to the scheduler, and
    the value it passes is chosen by the variant: the date of a scheduled
    spec, the delay of a delayed spec, the expression of a cron spec;
    the callback is always [executeTask] and the payload the description.
    The scheduler registers the date verbatim, the delay as now + delay
    (so a delay of 5 issued at [T] is due exactly from [T + 5] on), and a
    well-formed cron expression at the time its evaluator gives. *)
Theorem scheduleTask_passes_variant_value (description : string) (w : World) :
  (forall date,
     let w' := (scheduleTask_execute (Scheduled date, description) w).2 in
     trace w' = trace w ++ [EvSchedule (AtDate date) "executeTask" description]
     /\ schedules w' = schedules w ++ [registered w description date KScheduled])
  /\ (forall delayInSeconds,
     let w' := (scheduleTask_execute (Delayed delayInSeconds, description) w).2 in
     trace w' = trace w ++ [EvSchedule (AfterSeconds delayInSeconds) "executeTask" description]
     /\ schedules w' = schedules w ++
          [registered w description (now w + delayInSeconds) (KDelayed delayInSeconds)])
  /\ (forall cron,
     let w' := (scheduleTask_execute (Cron cron, description) w).2 in
     trace w' = trace w ++ [EvSchedule (OnCron cron) "executeTask" description]
     /\ schedules w' = schedules w ++
          match cron_next cron (now w) with
          | Some next => [registered w description next (KCron cron)]
          | None => []
          end)
  /\ (forall t, is_due t (registered w description (now w + 5) (KDelayed 5)) = true
               <-> (now w + 5 <= t)%Z).
Proof.
  split; [|split; [|split]].
  - intros date; split; reflexivity.
  - intros delayInSeconds; split; reflexivity.
  - intros cron.
    unfold scheduleTask_execute, agent_schedule, register, generateId.
    exec_step; cbn.
    destruct (cron_next cron (now w)); cbn; split; try reflexivity.
    symmetry; apply app_nil_r.
  - intros t. unfold is_due, registered; cbn. apply Z.leb_le.
Qed.

(** C6: invoked with the no-schedule variant, the scheduling tool returns
    the message [Not a valid schedule input] as its result (it does not
    throw) and leaves the world as it found it: no schedule is registered
    and the scheduler is not called. *)
Theorem scheduleTask_no_schedule (description : string) (w : World) :
  let r := scheduleTask_execute (NoSchedule, description) w in
  r.1 = Returned "Not a valid schedule input"
  /\ schedules r.2 = schedules w
  /\ trace r.2 = trace w
  /\ r.2 = w.
Proof.
  unfold scheduleTask_execute; cbn.
  repeat split.
Qed.

(** Every key of the [tools] object literal is one of the six names. *)
Lemma tools_lookup (name : string) (t : Tool) :
  tools !! name = Some t -> (name, t) ∈ tool_entries.
Proof. apply elem_of_list_to_map_2. Qed.

(** C2: a tool of the registry is classified as requiring confirmation
    exactly when it has no [execute] function, and as auto-executing
    otherwise; and the tools without [execute] are exactly those whose
    implementation is in the [executions] table. *)
Theorem tools_classification (name : string) (t : Tool) :
  tools !! name = Some t ->
  (classify t = RequiresConfirmation <-> execute t = None)
  /\ (classify t = Auto <-> is_Some (execute t))
  /\ (execute t = None <-> is_Some (executions !! name)).
Proof.
  intros Hin. apply tools_lookup in Hin.
  assert (Hcls : (classify t = RequiresConfirmation <-> execute t = None)
                 /\ (classify t = Auto <-> is_Some (execute t))).
  { unfold classify. destruct (execute t) as [f|].
    - repeat split; try discriminate; eauto.
    - repeat split; try discriminate; intros [f Hf]; discriminate. }
  destruct Hcls as [Hconfirm Hauto].
  split; [exact Hconfirm|]. split; [exact Hauto|].
  unfold tool_entries in Hin.
  repeat (apply elem_of_cons in Hin as [Hin|Hin]; [injection Hin as -> ->|]).
  - split; [intros _|reflexivity]. unfold executions.
    rewrite lookup_singleton_eq. eauto.
  - split; [discriminate|]. unfold executions.
    rewrite lookup_singleton_ne by discriminate. intros [f Hf]; discriminate.
  - split; [discriminate|]. unfold executions.
    rewrite lookup_singleton_ne by discriminate. intros [f Hf]; discriminate.
  - split; [discriminate|]. unfold executions.
    rewrite lookup_singleton_ne by discriminate. intros [f Hf]; discriminate.
  - split; [discriminate|]. unfold executions.
    rewrite lookup_singleton_ne by discriminate. intros [f Hf]; discriminate.
  - split; [discriminate|]. unfold executions.
    rewrite lookup_singleton_ne by discriminate. intros [f Hf]; discriminate.
  - apply elem_of_nil in Hin. destruct Hin.
Qed.

(** C7: the fire handler appends exactly one message, a [user] message
    carrying the task's description, to the persisted conversation, and
    that append is the first thing it does to the outside: the model is
    invoked only afterwards, and a process that dies in between leaves
    the appended message in place and never reaches the model. *)
Theorem executeTask_appends_before_model
    (description : string) (task : Schedule) (w : World) :
  let fired := {| msg_id := fresh_id (id_counter w);
                  role := "user";
                  content := "Running scheduled task: " +:+ description;
                  createdAt := now w |} in
  let dies := bool_decide (crash_budget w = Some O) in
  let r := executeTask description task w in
  messages r.2 = messages w ++ [fired]
  /\ trace r.2 = trace w ++ EvPersistMessages (messages w ++ [fired])
                          :: (if dies then [] else [EvModelInvoke])
  /\ r.1 = (if dies then Crashed else Returned tt).
Proof.
  unfold executeTask, saveMessages, generateId, crash_point.
  exec_step; cbn.
  destruct (crash_budget w) as [[|n]|]; cbn.
  - repeat split.
  - repeat split. rewrite <- app_assoc. reflexivity.
  - repeat split. rewrite <- app_assoc. reflexivity.
Qed.

(** Cancelling an id no active schedule carries changes nothing but the
    trace and the console, and the scheduler's failure comes back as the
    tool's result. *)
Lemma cancel_absent (taskId : string) (w : World) :
  existsb (has_id taskId) (schedules w) = false ->
  let r := cancelScheduledTask_execute taskId w in
  r.1 = Returned ("Error canceling task " +:+ taskId +:+ ": "
                  +:+ Exn_toString (ScheduleNotFound taskId))
  /\ schedules r.2 = schedules w.
Proof.
  intros Habsent.
  unfold cancelScheduledTask_execute, agent_cancelSchedule.
  exec_step; cbn. rewrite Habsent; cbn. split; reflexivity.
Qed.

Lemma existsb_has_id_false (taskId : string) (l : list Schedule) :
  (forall s, s ∈ l -> sched_id s <> taskId) ->
  existsb (has_id taskId) l = false.
Proof.
  induction l as [|s l IH]; intros Hall; cbn; [reflexivity|].
  unfold has_id at 1. rewrite bool_decide_eq_false_2.
  - apply IH. intros s' Hs'. apply Hall. right. exact Hs'.
  - apply Hall. left.
Qed.

(** Firing a one-off spec whose id is unique removes it. *)
Lemma after_fire_removes (s : Schedule) (t : Z) (l : list Schedule) :
  (forall s', s' ∈ l -> sched_id s' = sched_id s ->
              forall cron, kind s' <> KCron cron) ->
  forall s', s' ∈ flat_map (fun s' => if has_id (sched_id s) s'
                                     then reschedule t s' else [s']) l ->
             sched_id s' <> sched_id s.
Proof.
  intros Hone s' Hin. apply list_elem_of_In, in_flat_map in Hin.
  destruct Hin as (s0 & Hs0 & Hin). apply list_elem_of_In in Hs0.
  unfold has_id in Hin. case_bool_decide as Hid.
  - unfold reschedule in Hin. specialize (Hone s0 Hs0 Hid).
    destruct (kind s0) as [| |cron]; try destruct Hin.
    exfalso. exact (Hone cron eq_refl).
  - destruct Hin as [<-|[]]. exact Hid.
Qed.

(** C8: cancelling an id that no active schedule carries does not throw:
    the cancel tool returns an error message that names the task and the
    scheduler's not-found failure, and the schedules stay as they were.
    In particular this is what happens for the id of a one-off spec that
    has already fired. *)
Theorem cancel_unknown_id_is_reported (taskId : string) (w : World) :
  let reported id :=
    Returned ("Error canceling task " +:+ id +:+ ": "
              +:+ Exn_toString (ScheduleNotFound id)) in
  ((forall s, s ∈ schedules w -> sched_id s <> taskId) ->
   let r := cancelScheduledTask_execute taskId w in
   r.1 = reported taskId /\ schedules r.2 = schedules w)
  /\ (forall s,
        s ∈ schedules w ->
        (forall s', s' ∈ schedules w -> sched_id s' = sched_id s -> s' = s) ->
        (forall cron, kind s <> KCron cron) ->
        callback s = "executeTask" ->
        crash_budget w = None ->
        let fired := fire s w in
        fired.1 = Returned tt
        /\ (cancelScheduledTask_execute (sched_id s) fired.2).1
           = reported (sched_id s)).
Proof.
  cbn zeta. split.
  - intros Hunknown. apply cancel_absent, existsb_has_id_false, Hunknown.
  - intros s Hs Huniq Honeoff Hcb Hbudget.
    assert (Hfire :
      (fire s w).1 = Returned tt
      /\ forall s', s' ∈ schedules (fire s w).2 -> sched_id s' <> sched_id s).
    { unfold fire, after_fire, executeTask, saveMessages, generateId, crash_point.
      rewrite Hcb. exec_step; cbn. rewrite Hbudget; cbn.
      split; [reflexivity|].
      apply after_fire_removes.
      intros s' Hs' Hid cron. rewrite (Huniq s' Hs' Hid). apply Honeoff. }
    destruct Hfire as [Hret Hgone]. split; [exact Hret|].
    apply cancel_absent, existsb_has_id_false, Hgone.
Qed.

(** C10: for a query whose embedding is computed, the retrieval tool asks
    the vector index once, for the 5 nearest vectors; the only document
    lookup it can make is for the id of the first match (it makes it when
    that id is not the empty string, and makes none when there is no
    match); it then asks the model once and returns its answer.  With no
    match the model input carries no context message: it is the system
    prompt and the query alone. *)
Theorem getRAGTool_reads_first_match_only
    (query : string) (w : World) (vector : Embedding) (others : list Embedding) :
  embeddings_create query = vector :: others ->
  let matches := default [] (vectorize_query (vectors w) vector 5) in
  let lookups :=
    match matches with
    | first :: _ =>
        if decide (match_id first = EmptyString) then []
        else [EvDbSelect (match_id first)]
    | [] => []
    end in
  let r := getRAGTool_execute query w in
  exists input,
    r.1 = Returned (responses_create input)
    /\ trace r.2 = trace w
                   ++ [EvEmbeddingsCreate query; EvVectorizeQuery vector 5]
                   ++ lookups ++ [EvResponsesCreate input]
    /\ (matches = [] -> input = [developer systemPrompt; user query]).
Proof.
  intros Hembed. cbn zeta.
  unfold getRAGTool_execute, ai_embeddings_create, VECTORIZE_query,
    DB_select_by_id, ai_responses_create.
  exec_step; cbn. rewrite Hembed; cbn.
  destruct (vectorize_query (vectors w) vector 5) as [[|first rest]|]; cbn.
  - eexists. split; [reflexivity|]. split; [|reflexivity].
    rewrite <- !app_assoc. reflexivity.
  - destruct (match_id first) as [|c id] eqn:Hid; cbn.
    + eexists. split; [reflexivity|]. split; [|discriminate].
      rewrite <- !app_assoc. reflexivity.
    + destruct (d1_select_by_id (docs w) (String c id)) as [[|row rows]|];
        cbn; eexists; (split; [reflexivity|]); (split; [|discriminate]);
        rewrite <- !app_assoc; reflexivity.
  - eexists. split; [reflexivity|]. split; [|reflexivity].
    rewrite <- !app_assoc. reflexivity.
Qed.

End ToolProperties.

Section ServerProperties.
Context `{!Services}.

(** C9 (amended): for a body whose [text] property is a non-empty string
    the endpoint creates exactly one workflow run for that text, under a
    freshly drawn run id, and answers 201; when the property is absent or
    is the empty string it answers 400 and creates no run. *)
Theorem post_text_creates_run_for_nonempty_text
    (fields : list (string * JsValue)) (w : World) :
  let property := List.find (fun kv => String.eqb kv.1 "text") fields in
  let r := post_text (JObj fields) w in
  (forall key c s,
     property = Some (key, JStr (String c s)) ->
     r.1 = Returned {| body := "Create note"; status := 201 |}
     /\ workflow_runs r.2 = workflow_runs w ++
          [ {| run_id := fresh_id (id_counter w); run_text := JStr (String c s) |} ]
     /\ trace r.2 = trace w ++ [EvWorkflowCreate (JStr (String c s))])
  /\ ((property = None \/ exists key, property = Some (key, JStr EmptyString)) ->
      r = (Returned {| body := "Missing text"; status := 400 |}, w)).
Proof.
  cbn zeta. unfold post_text, destructure, RAG_WORKFLOW_create, generateId.
  exec_step; cbn. split.
  - intros key c s Hfind. rewrite Hfind; cbn. repeat split.
  - intros [Hfind|[key Hfind]]; rewrite Hfind; reflexivity.
Qed.

(** C4: when the persistence layer returns an empty result set to the
    first step, the run ends with the thrown error
    [Failed to create document]; the insert is the only call made:
    no embedding is requested, nothing is written to the vector index, and
    no step is checkpointed. *)
Theorem create_record_empty_aborts
    (text : string) (w : World) (table : list DocumentRow) :
  checkpoints w !! "create database record" = None ->
  crash_budget w <> Some O ->
  d1_insert_returning (docs w) text = (table, []) ->
  let r := RAGWorkflow_run text w in
  r.1 = Threw (JsError "Failed to create document")
  /\ trace r.2 = trace w ++ [EvDbInsert text]
  /\ vectors r.2 = vectors w
  /\ checkpoints r.2 = checkpoints w.
Proof.
  intros Hfresh Halive Hempty. cbn zeta.
  unfold RAGWorkflow_run, step_do, crash_point, DB_insert_returning.
  exec_step; cbn. rewrite Hfresh; cbn.
  destruct (crash_budget w) as [[|n]|]; [congruence| |];
    cbn; rewrite Hempty; cbn; repeat split.
Qed.

(** One process, started in a world where [n] steps are complete, brings
    the run [k] steps further, or to its end, and stops there. *)
Lemma attempt_progress
    (w0 : World) (text : string) (table : list DocumentRow) (row : DocumentRow)
    (rest : list DocumentRow) (vector : Embedding) (others : list Embedding)
    (n : nat) (b : option nat) (w : World) :
  d1_insert_returning (docs w0) text = (table, row :: rest) ->
  embeddings_create text = vector :: others ->
  progressed w0 text table row vector n w ->
  let r := attempt b text w in
  let n' := match b with None => 3 | Some k => (n + k) `min` 3 end in
  progressed w0 text table row vector n' r.2
  /\ r.1 = (if decide (n' = 3) then Returned tt else Crashed).
Proof.
  intros Hins Hemb [Hn Hck Htr Hdocs Hvec]. cbn zeta.
  unfold attempt, RAGWorkflow_run, step_do, crash_point, DB_insert_returning,
    ai_embeddings_create, VECTORIZE_upsert.
  exec_step.
  destruct n as [|[|[|[|n]]]]; [| | | |lia]; unfold completed in Hck;
    destruct b as [[|[|[|b]]]|];
    repeat first [ rewrite Hins | rewrite Hemb | rewrite Hck | rewrite Hdocs
                 | progress simplify_map_eq | progress cbn ];
    rewrite ?Nat.min_0_r; cbn;
    (split; [|reflexivity]);
    split; cbn; rewrite ?Hck, ?Htr, ?Hdocs, ?Hvec, <- ?app_assoc;
    first [lia | reflexivity].
Qed.

(** However many processes die on the way, the run ends complete. *)
Lemma resume_progress
    (w0 : World) (text : string) (table : list DocumentRow) (row : DocumentRow)
    (rest : list DocumentRow) (vector : Embedding) (others : list Embedding)
    (budgets : list nat) :
  d1_insert_returning (docs w0) text = (table, row :: rest) ->
  embeddings_create text = vector :: others ->
  forall n w,
    progressed w0 text table row vector n w ->
    (resume budgets text w).1 = Returned tt
    /\ progressed w0 text table row vector 3 (resume budgets text w).2.
Proof.
  intros Hins Hemb.
  induction budgets as [|b budgets IH]; intros n w Hprog; cbn.
  - destruct (attempt_progress _ _ _ _ _ _ _ n None w Hins Hemb Hprog)
      as [Hdone Hret].
    split; [exact Hret|exact Hdone].
  - destruct (attempt_progress _ _ _ _ _ _ _ n (Some b) w Hins Hemb Hprog)
      as [Hnext _].
    exact (IH _ _ Hnext).
Qed.

(** A step whose callback makes the one external call [e] and leaves the
    checkpoints alone either makes no call, or makes [e] and was not
    complete; it touches no checkpoint but its own. *)
Lemma step_do_effect {A} `{!Checkpointable A} (name : string) (callback : Exec A)
    (e : Event) (w : World) :
  (forall w1, trace (callback w1).2 = trace w1 ++ [e]
              /\ checkpoints (callback w1).2 = checkpoints w1) ->
  let r := step_do name callback w in
  (trace r.2 = trace w
   \/ (trace r.2 = trace w ++ [e] /\ ~ step_complete A name w))
  /\ forall name', name' <> name -> checkpoints r.2 !! name' = checkpoints w !! name'.
Proof.
  intros Hcb. unfold step_do, crash_point, step_complete. exec_step; cbn.
  destruct (option_bind _ _ _ _) as [a|] eqn:Hstored; cbn.
  - split; [left; reflexivity|reflexivity].
  - assert (Hnot : ~ is_Some (None : option A)) by (intros [a Ha]; discriminate).
    destruct (crash_budget w) as [[|n]|]; cbn.
    + split; [left; reflexivity|reflexivity].
    + destruct (Hcb (set_crash_budget (Some n) w)) as [Htr Hck].
      destruct (callback (set_crash_budget (Some n) w)) as [[a|caught|] w1];
        cbn in *; (split; [right; split; [exact Htr|exact Hnot]|]);
        intros name' Hne; rewrite ?lookup_insert_ne by congruence;
        rewrite Hck; reflexivity.
    + destruct (Hcb w) as [Htr Hck].
      destruct (callback w) as [[a|caught|] w1];
        cbn in *; (split; [right; split; [exact Htr|exact Hnot]|]);
        intros name' Hne; rewrite ?lookup_insert_ne by congruence;
        rewrite Hck; reflexivity.
Qed.

Lemma trace_extend (w wa wb : World) (new : list Event) (e : Event) :
  trace wa = trace w ++ new ->
  Forall (fun e => ~ repeats_completed_step w e) new ->
  trace wb = trace wa
  \/ (trace wb = trace wa ++ [e] /\ ~ repeats_completed_step w e) ->
  exists new', trace wb = trace w ++ new'
               /\ Forall (fun e => ~ repeats_completed_step w e) new'.
Proof.
  intros Htr Hall [Hsame|[Hmore Hfresh]].
  - exists new. rewrite Hsame. split; assumption.
  - exists (new ++ [e]). rewrite Hmore, Htr, app_assoc. split; [reflexivity|].
    apply Forall_app. split; [exact Hall|]. constructor; [exact Hfresh|constructor].
Qed.

(** Whatever the collaborators answer and wherever the process dies, an
    execution of the run makes no call of a step that was already
    complete when it started. *)
Lemma attempt_never_repeats (text : string) (budget : option nat) (w : World) :
  exists new, trace (attempt budget text w).2 = trace w ++ new
              /\ Forall (fun e => ~ repeats_completed_step w e) new.
Proof.
  unfold attempt, RAGWorkflow_run.
  unfold mbind at 1, Exec_bind at 1, bind at 1, modify.
  set (w0 := set_crash_budget budget w).
  assert (Htr0 : trace w0 = trace w ++ []) by (symmetry; apply app_nil_r).
  assert (Hck0 : checkpoints w0 = checkpoints w) by reflexivity.
  clearbody w0.
  unfold mbind, Exec_bind, bind.
  (* create database record *)
  match goal with |- context [step_do ?n ?cb w0] =>
    destruct (step_do_effect n cb (EvDbInsert text) w0) as [Ht1 Hc1];
    [ intros w'; unfold DB_insert_returning; exec_step; cbn;
      destruct (head _); cbn; split; reflexivity |];
    destruct (step_do n cb w0) as [[record|caught|] w1] end; cbn in Ht1, Hc1 |- *.
  all: assert (H1 : exists new, trace w1 = trace w ++ new
                 /\ Forall (fun e => ~ repeats_completed_step w e) new)
         by (apply (trace_extend w w0 w1 [] (EvDbInsert text) Htr0);
             [constructor|];
             unfold repeats_completed_step, step_complete in *;
             rewrite <- Hck0; exact Ht1).
  2-3: exact H1.
  destruct H1 as (new1 & Htr1 & Hall1).
  (* generate embedding *)
  match goal with |- context [step_do ?n ?cb w1] =>
    destruct (step_do_effect n cb (EvEmbeddingsCreate text) w1) as [Ht2 Hc2];
    [ intros w'; unfold ai_embeddings_create; exec_step; cbn;
      destruct (embeddings_create text); cbn; split; reflexivity |];
    destruct (step_do n cb w1) as [[embedding|caught|] w2] end; cbn in Ht2, Hc2 |- *.
  all: assert (H2 : exists new, trace w2 = trace w ++ new
                 /\ Forall (fun e => ~ repeats_completed_step w e) new)
         by (apply (trace_extend w w1 w2 new1 (EvEmbeddingsCreate text) Htr1 Hall1);
             unfold repeats_completed_step, step_complete in *;
             rewrite <- Hck0, <- (Hc1 "generate embedding") by discriminate;
             exact Ht2).
  2-3: exact H2.
  destruct H2 as (new2 & Htr2 & Hall2).
  (* insert vector *)
  match goal with |- context [step_do ?n ?cb w2] =>
    destruct (step_do_effect n cb
                (EvVectorizeUpsert (pretty (doc_id record)) embedding) w2)
      as [Ht3 Hc3];
    [ intros w'; unfold VECTORIZE_upsert; exec_step; cbn; split; reflexivity |];
    destruct (step_do n cb w2) as [[u|caught|] w3] end; cbn in Ht3, Hc3 |- *.
  all: apply (trace_extend w w2 w3 new2
                (EvVectorizeUpsert (pretty (doc_id record)) embedding) Htr2 Hall2);
       unfold repeats_completed_step, step_complete in *;
       rewrite <- Hck0, <- (Hc1 "insert vector"), <- (Hc2 "insert vector")
         by discriminate;
       exact Ht3.
Qed.
(** C3: an ingestion run on [text], whose insert returns a row and whose
    embedding is computed, performs exactly one insert, one embedding
    request and one upsert, the upsert keyed by the id of the row that
    insert returned, however many times a process dies after a completed
    step and the run is resumed.  A process that dies after [k] completed
    steps has made exactly the calls of the first [k] steps; the process
    that resumes makes exactly the calls of the remaining steps, starting
    at the first incomplete one, and none of the completed ones again.
    And whatever the collaborators answer, from any world: an execution of
    the run never makes the call of a step whose result is already
    checkpointed; in particular it never inserts a second row. *)
Theorem ingestion_exactly_once
    (text : string) (w : World) (table : list DocumentRow) (row : DocumentRow)
    (rest : list DocumentRow) (vector : Embedding) (others : list Embedding) :
  checkpoints w = ∅ ->
  d1_insert_returning (docs w) text = (table, row :: rest) ->
  embeddings_create text = vector :: others ->
  let effects := [ EvDbInsert text; EvEmbeddingsCreate text;
                   EvVectorizeUpsert (pretty (doc_id row)) vector ] in
  (forall budgets,
     let r := resume budgets text w in
     r.1 = Returned tt
     /\ trace r.2 = trace w ++ effects
     /\ docs r.2 = table
     /\ vectors r.2 = <[pretty (doc_id row) := vector]> (vectors w))
  /\ (forall k,
        let crashed := attempt (Some k) text w in
        let resumed := attempt None text crashed.2 in
        trace crashed.2 = trace w ++ take k effects
        /\ (k < 3 -> crashed.1 = Crashed)
        /\ resumed.1 = Returned tt
        /\ trace resumed.2 = trace crashed.2 ++ drop k effects)
  /\ (forall budget w1,
        exists new,
          trace (attempt budget text w1).2 = trace w1 ++ new
          /\ Forall (fun e => ~ repeats_completed_step w1 e) new).
Proof.
  intros Hfresh Hins Hemb. cbn zeta.
  assert (Hstart : progressed w text table row vector 0 w).
  { split; cbn; [lia|exact Hfresh|symmetry; apply app_nil_r|reflexivity..]. }
  split; [|split; [|intros budget w1; apply attempt_never_repeats]].
  - intros budgets.
    destruct (resume_progress w text table row rest vector others budgets
                Hins Hemb 0 w Hstart) as [Hret [_ _ Htr Hdocs Hvec]].
    repeat split; assumption.
  - intros k.
    destruct (attempt_progress w text table row rest vector others
                0 (Some k) w Hins Hemb Hstart) as [Hcrashed Hout].
    destruct (attempt_progress w text table row rest vector others
                _ None _ Hins Hemb Hcrashed) as [[_ _ Hfinal _ _] Hret].
    cbn in Hcrashed, Hout, Hfinal, Hret.
    pose proof (prog_trace _ _ _ _ _ _ _ Hcrashed) as Htr.
    assert (Htake : take (k `min` 3) (effects_of text row vector)
                    = take k (effects_of text row vector)).
    { destruct k as [|[|[|k]]]; cbn; rewrite ?Nat.min_0_r; cbn;
      rewrite ?take_nil; reflexivity. }
    rewrite Htake in Htr. unfold effects_of in Htr, Hfinal.
    repeat split.
    + exact Htr.
    + intros Hk. rewrite Hout. destruct (decide (k `min` 3 = 3)); [lia|reflexivity].
    + exact Hret.
    + rewrite Hfinal, Htr, <- app_assoc, take_drop. reflexivity.
Qed.

End ServerProperties.

(** *** Traversals *)

Lemma bind_returned {A B} (m : Exec A) (k : A -> Exec B) (w w' : World) (b : B) :
  (m ≫= k) w = (Returned b, w') ->
  exists a w1, m w = (Returned a, w1) /\ k a w1 = (Returned b, w').
Proof.
  unfold mbind, Exec_bind, bind.
  destruct (m w) as [[a|e|] w1]; intros Heq; [eauto|discriminate..].
Qed.

Lemma traverse_cons_returned {A B C} (f : A -> Exec (B * list C))
    (a : A) (rest : list A) (w w' : World) (l' : list B) (cs : list C) :
  traverse f (a :: rest) w = (Returned (l', cs), w') ->
  exists a' ca w1 rest' cr,
    f a w = (Returned (a', ca), w1)
    /\ traverse f rest w1 = (Returned (rest', cr), w')
    /\ l' = a' :: rest' /\ cs = ca ++ cr.
Proof.
  cbn [traverse]. intros Heq.
  apply bind_returned in Heq as ([a' ca] & w1 & Hhead & Heq).
  apply bind_returned in Heq as ([rest' cr] & w2 & Htail & Heq).
  injection Heq as <- <- <-. eauto 10.
Qed.

Lemma filter_none {C} (cid : C -> string) (id : string) (cs : list C) :
  Forall (fun c => cid c <> id) cs -> filter (fun c => cid c = id) cs = [].
Proof.
  induction 1 as [|c cs Hc _ IH]; [reflexivity|].
  rewrite filter_cons_False by exact Hc. exact IH.
Qed.

Section Traverse.
Context {A C : Type} (f : A -> Exec (A * list C)).
Context (ids : A -> list string) (cid : C -> string).
Hypothesis f_ids : forall a w a' cs w',
  f a w = (Returned (a', cs), w') ->
  ids a' = ids a /\ Forall (fun c => cid c ∈ ids a) cs.

Lemma traverse_ids (l : list A) : forall w l' cs w',
  traverse f l w = (Returned (l', cs), w') ->
  l' ≫= ids = l ≫= ids /\ Forall (fun c => cid c ∈ l ≫= ids) cs.
Proof.
  induction l as [|a rest IH]; intros w l' cs w' Heq.
  - injection Heq as <- <- <-. split; [reflexivity|constructor].
  - apply traverse_cons_returned in Heq
      as (a' & ca & w1 & rest' & cr & Hhead & Htail & -> & ->).
    destruct (f_ids _ _ _ _ _ Hhead) as [Hid Hca].
    destruct (IH _ _ _ _ Htail) as [Hids Hcr].
    cbn. rewrite Hid, Hids. split; [reflexivity|].
    apply Forall_app. split.
    + eapply Forall_impl; [exact Hca|]. intros c Hc. apply elem_of_app. left. exact Hc.
    + eapply Forall_impl; [exact Hcr|]. intros c Hc. apply elem_of_app. right. exact Hc.
Qed.

Lemma traverse_lookup (l : list A) : forall w l' cs w' i a,
  traverse f l w = (Returned (l', cs), w') ->
  l !! i = Some a ->
  exists a' ca wa wa',
    f a wa = (Returned (a', ca), wa')
    /\ l' !! i = Some a'
    /\ (NoDup (l ≫= ids) -> forall id, id ∈ ids a ->
        filter (fun c => cid c = id) cs = filter (fun c => cid c = id) ca).
Proof.
  induction l as [|a0 rest IH]; intros w l' cs w' i a Heq Hi; [discriminate|].
  apply traverse_cons_returned in Heq
    as (a' & ca & w1 & rest' & cr & Hhead & Htail & -> & ->).
  destruct (f_ids _ _ _ _ _ Hhead) as [_ Hca].
  destruct (traverse_ids _ _ _ _ _ Htail) as [_ Hcr].
  destruct i as [|i]; cbn in Hi.
  - injection Hi as ->. exists a', ca, w, w1.
    split; [exact Hhead|]. split; [reflexivity|].
    intros Hnodup id Hid. cbn in Hnodup. apply NoDup_app in Hnodup as (_ & Hdisj & _).
    rewrite filter_app, (filter_none cid id cr), app_nil_r; [reflexivity|].
    eapply Forall_impl; [exact Hcr|]. intros c Hc Heq. cbv beta in Hc. rewrite Heq in Hc.
    exact (Hdisj _ Hid Hc).
  - destruct (IH _ _ _ _ _ _ Htail Hi) as (a1 & c1 & wa & wa' & Hf & Hl & Hcalls).
    exists a1, c1, wa, wa'. split; [exact Hf|]. split; [exact Hl|].
    intros Hnodup id Hid. cbn in Hnodup. apply NoDup_app in Hnodup as (_ & Hdisj & Hrest).
    rewrite filter_app, (filter_none cid id ca); [exact (Hcalls Hrest id Hid)|].
    eapply Forall_impl; [exact Hca|]. intros c Hc Heq. cbv beta in Hc. rewrite Heq in Hc.
    apply (Hdisj _ Hc). apply list_elem_of_bind. exists a.
    split; [exact Hid|]. eapply list_elem_of_lookup_2. exact Hi.
Qed.

End Traverse.

Section ResolverProperties.
Context {Args Result : Type}.
Context (active : gmap string (option (Args -> Exec Result))).
Context (table : gmap string (Args -> Exec Result)).
Context (decisions : gmap string bool).

Local Abbreviation resolve := (resolve_invocation active table decisions).
Local Abbreviation pass := (processToolCalls active table decisions).

(** A settled invocation goes through a pass untouched, and nothing is
    called for it. *)
Lemma resolve_settled (inv : ToolInvocation Args Result) (w : World) :
  settled active decisions inv -> resolve inv w = (Returned (inv, []), w).
Proof.
  unfold resolve_invocation. intros [Hstate|[Htool Hnone]].
  - destruct (state inv); [contradiction|reflexivity..].
  - rewrite Htool, Hnone. destruct (state inv); reflexivity.
Qed.

(** What running an execution function for an invocation leaves behind. *)
Lemma run_captured_returned (f : Args -> Exec Result)
    (inv inv' : ToolInvocation Args Result) (cs : list (Call Args)) (w w' : World) :
  run_captured f inv w = (Returned (inv', cs), w') ->
  cs = [call_of inv]
  /\ ((exists value, (f (args inv) w).1 = Returned value
                    /\ inv' = settle inv executed (ResultValue value))
      \/ (exists caught, (f (args inv) w).1 = Threw caught
                        /\ inv' = settle inv error (ResultError caught))).
Proof.
  unfold run_captured. exec_step.
  destruct (f (args inv) w) as [[value|caught|] w1]; cbn; intros Heq;
    [injection Heq as <- <- <-|injection Heq as <- <- <-|discriminate].
  - split; [reflexivity|]. left. eauto.
  - split; [reflexivity|]. right. eauto.
Qed.

(** A pass over one invocation keeps its id, and calls only on its behalf. *)
Lemma resolve_ids (inv : ToolInvocation Args Result) (w : World)
    (inv' : ToolInvocation Args Result) (cs : list (Call Args)) (w' : World) :
  resolve inv w = (Returned (inv', cs), w') ->
  [inv_id inv'] = [inv_id inv] /\ Forall (fun c => call_id c ∈ [inv_id inv]) cs.
Proof.
  assert (Hsame : forall x : ToolInvocation Args Result * list (Call Args),
            x = (inv, []) -> [inv_id x.1] = [inv_id inv]
              /\ Forall (fun c => call_id c ∈ [inv_id inv]) x.2).
  { intros x ->. split; [reflexivity|constructor]. }
  assert (Hrun : forall f, run_captured f inv w = (Returned (inv', cs), w') ->
            [inv_id inv'] = [inv_id inv]
            /\ Forall (fun c => call_id c ∈ [inv_id inv]) cs).
  { intros f Hf. apply run_captured_returned in Hf as [-> Hinv]. split.
    - destruct Hinv as [(v & _ & ->)|(e & _ & ->)]; reflexivity.
    - repeat constructor. }
  unfold resolve_invocation.
  destruct (state inv); try (intros Heq; injection Heq as <- <- _; exact (Hsame _ eq_refl)).
  destruct (active !! toolName inv) as [[f|]|];
    try (intros Heq; injection Heq as <- <- _; exact (Hsame _ eq_refl)).
  - destruct (result inv); [intros Heq; injection Heq as <- <- _; exact (Hsame _ eq_refl)|].
    apply Hrun.
  - destruct (decisions !! inv_id inv) as [[|]|];
      try (intros Heq; injection Heq as <- <- _; exact (Hsame _ eq_refl)).
    destruct (table !! toolName inv) as [f|]; [apply Hrun|].
    intros Heq; injection Heq as <- <- _. exact (Hsame _ eq_refl).
Qed.

Lemma bind_singleton_ids (l : list (ToolInvocation Args Result)) :
  l ≫= (fun inv => [inv_id inv]) = inv_id <$> l.
Proof. induction l as [|inv l IH]; [reflexivity|]. cbn. rewrite <- IH. reflexivity. Qed.

(** A pass over one message keeps the ids of its invocations, and calls
    only on their behalf. *)
Lemma resolve_message_ids (m : ConversationMessage Args Result) (w : World)
    (m' : ConversationMessage Args Result) (cs : list (Call Args)) (w' : World) :
  resolve_message active table decisions m w = (Returned (m', cs), w') ->
  inv_id <$> toolInvocations m' = inv_id <$> toolInvocations m
  /\ Forall (fun c => call_id c ∈ inv_id <$> toolInvocations m) cs.
Proof.
  unfold resolve_message. intros Heq.
  apply bind_returned in Heq as ([invs ca] & w1 & Htrav & Heq).
  injection Heq as <- <- <-. cbn.
  destruct (traverse_ids resolve (fun inv => [inv_id inv]) call_id resolve_ids
              _ _ _ _ _ Htrav) as [Hids Hcalls].
  rewrite !bind_singleton_ids in Hids. split; [exact Hids|].
  rewrite bind_singleton_ids in Hcalls. exact Hcalls.
Qed.

Lemma pass_ids (msgs msgs' : list (ConversationMessage Args Result))
    (cs : list (Call Args)) (w w' : World) :
  pass msgs w = (Returned (msgs', cs), w') ->
  invocation_ids msgs' = invocation_ids msgs.
Proof.
  intros Heq.
  exact (proj1 (traverse_ids _ (fun m => inv_id <$> toolInvocations m) call_id
                  resolve_message_ids _ _ _ _ _ Heq)).
Qed.

(** Where an invocation stands after a pass, and which calls were made
    for it. *)
Lemma pass_lookup (msgs msgs' : list (ConversationMessage Args Result))
    (cs : list (Call Args)) (w w' : World) (i j : nat)
    (inv : ToolInvocation Args Result) :
  pass msgs w = (Returned (msgs', cs), w') ->
  invocation_at msgs i j = Some inv ->
  exists inv' ca wa wa',
    resolve inv wa = (Returned (inv', ca), wa')
    /\ invocation_at msgs' i j = Some inv'
    /\ (NoDup (invocation_ids msgs) -> calls_for (inv_id inv) cs = ca).
Proof.
  intros Hpass Hat. unfold invocation_at in Hat.
  destruct (msgs !! i) as [m|] eqn:Hm; [cbn in Hat|discriminate].
  destruct (traverse_lookup _ (fun m => inv_id <$> toolInvocations m) call_id
              resolve_message_ids _ _ _ _ _ _ _ Hpass Hm)
    as (m' & cm & wm & wm' & Hmsg & Hm' & Hcm).
  unfold resolve_message in Hmsg.
  apply bind_returned in Hmsg as ([invs cm'] & w1 & Htrav & Heq).
  injection Heq as <- <- <-.
  destruct (traverse_lookup resolve (fun inv => [inv_id inv]) call_id resolve_ids
              _ _ _ _ _ _ _ Htrav Hat)
    as (inv' & ca & wa & wa' & Hres & Hinv' & Hca).
  exists inv', ca, wa, wa'. split; [exact Hres|]. split.
  - unfold invocation_at. rewrite Hm'. exact Hinv'.
  - intros Hnodup. unfold calls_for.
    assert (Hin : inv_id inv ∈ inv_id <$> toolInvocations m).
    { apply list_elem_of_fmap_2'  with inv; [|reflexivity].
      eapply list_elem_of_lookup_2. exact Hat. }
    rewrite (Hcm Hnodup _ Hin). cbn.
    assert (Hnodup_m : NoDup (inv_id <$> toolInvocations m)).
    { unfold invocation_ids in Hnodup.
      apply take_drop_middle in Hm. rewrite <- Hm, bind_app, bind_cons in Hnodup.
      apply NoDup_app in Hnodup as (_ & _ & Hnodup).
      apply NoDup_app in Hnodup as (Hnodup & _). exact Hnodup. }
    rewrite <- bind_singleton_ids in Hnodup_m.
    rewrite (Hca Hnodup_m (inv_id inv)) by (apply list_elem_of_here).
    destruct (resolve_ids _ _ _ _ _ Hres) as [_ Hown].
    clear -Hown. induction Hown as [|c ca Hc _ IH]; [reflexivity|].
    apply list_elem_of_singleton in Hc.
    rewrite filter_cons_True by exact Hc. rewrite IH. reflexivity.
Qed.

Lemma passes_succ_returned (n : nat)
    (msgs msgs' : list (ConversationMessage Args Result))
    (cs : list (Call Args)) (w w' : World) :
  passes active table decisions (S n) msgs w = (Returned (msgs', cs), w') ->
  exists msgs1 cs1 w1 cs2,
    pass msgs w = (Returned (msgs1, cs1), w1)
    /\ passes active table decisions n msgs1 w1 = (Returned (msgs', cs2), w')
    /\ cs = cs1 ++ cs2.
Proof.
  cbn [passes]. intros Heq.
  apply bind_returned in Heq as ([msgs1 cs1] & w1 & Hfirst & Heq).
  apply bind_returned in Heq as ([msgs2 cs2] & w2 & Hothers & Heq).
  injection Heq as <- <- <-. eauto 10.
Qed.

(** A settled invocation stays as it is, uncalled, through any number of
    passes. *)
Lemma passes_settled (i j : nat) (inv : ToolInvocation Args Result) (n : nat) :
  settled active decisions inv ->
  forall msgs w msgs' cs w',
    NoDup (invocation_ids msgs) ->
    invocation_at msgs i j = Some inv ->
    passes active table decisions n msgs w = (Returned (msgs', cs), w') ->
    invocation_at msgs' i j = Some inv /\ calls_for (inv_id inv) cs = [].
Proof.
  intros Hsettled.
  induction n as [|n IH]; intros msgs w msgs' cs w' Hnodup Hat Hpasses.
  - injection Hpasses as <- <- <-. split; [exact Hat|reflexivity].
  - apply passes_succ_returned in Hpasses
      as (msgs1 & cs1 & w1 & cs2 & Hfirst & Hothers & ->).
    destruct (pass_lookup _ _ _ _ _ _ _ _ Hfirst Hat)
      as (inv' & ca & wa & wa' & Hres & Hat1 & Hcalls).
    rewrite (resolve_settled _ _ Hsettled) in Hres. injection Hres as <- <- <-.
    rewrite <- (pass_ids _ _ _ _ _ Hfirst) in Hnodup.
    destruct (IH _ _ _ _ _ Hnodup Hat1 Hothers) as [Hat' Hnone].
    split; [exact Hat'|].
    unfold calls_for in *. rewrite filter_app, Hnone, app_nil_r.
    apply Hcalls. rewrite <- (pass_ids _ _ _ _ _ Hfirst). exact Hnodup.
Qed.

(** C1: take a pending invocation of a confirmation-required tool, in a
    history whose invocation ids are distinct.
    - Approved, with [f] registered for the tool: after one or more
      passes, [f] has been called for it exactly once, with the
      invocation's own arguments, and the invocation carries the terminal
      result of that call: [executed] with the value [f] returned, or
      [error] with what it threw.
    - Denied: after one or more passes it carries the declined result and
      nothing was called for it.
    - No decision: after any number of passes it is still the same
      pending invocation and nothing was called for it. *)
Theorem confirmation_resolution
    (msgs : list (ConversationMessage Args Result)) (i j : nat)
    (inv : ToolInvocation Args Result) (n : nat) (w : World)
    (msgs' : list (ConversationMessage Args Result))
    (calls : list (Call Args)) (w' : World) :
  NoDup (invocation_ids msgs) ->
  invocation_at msgs i j = Some inv ->
  state inv = pending ->
  active !! toolName inv = Some None ->
  (forall f : Args -> Exec Result,
     decisions !! inv_id inv = Some true ->
     table !! toolName inv = Some f ->
     passes active table decisions (S n) msgs w = (Returned (msgs', calls), w') ->
     calls_for (inv_id inv) calls
     = [ {| call_id := inv_id inv; call_tool := toolName inv;
            call_args := args inv |} ]
     /\ exists wa,
         (exists value,
            (f (args inv) wa).1 = Returned value
            /\ invocation_at msgs' i j
               = Some {| inv_id := inv_id inv; toolName := toolName inv;
                         args := args inv; state := executed;
                         result := Some (ResultValue value) |})
         \/ (exists caught,
               (f (args inv) wa).1 = Threw caught
               /\ invocation_at msgs' i j
                  = Some {| inv_id := inv_id inv; toolName := toolName inv;
                            args := args inv; state := error;
                            result := Some (ResultError caught) |}))
  /\ (decisions !! inv_id inv = Some false ->
      passes active table decisions (S n) msgs w = (Returned (msgs', calls), w') ->
      calls_for (inv_id inv) calls = []
      /\ invocation_at msgs' i j
         = Some {| inv_id := inv_id inv; toolName := toolName inv;
                   args := args inv; state := denied;
                   result := Some Declined |})
  /\ (decisions !! inv_id inv = None ->
      passes active table decisions n msgs w = (Returned (msgs', calls), w') ->
      calls_for (inv_id inv) calls = []
      /\ invocation_at msgs' i j = Some inv).
Proof.
  intros Hnodup Hat Hpending Hconfirm.
  split; [|split].
  - intros f Happroved Hf Hpasses.
    apply passes_succ_returned in Hpasses
      as (msgs1 & cs1 & w1 & cs2 & Hfirst & Hothers & ->).
    destruct (pass_lookup _ _ _ _ _ _ _ _ Hfirst Hat)
      as (inv' & ca & wa & wa' & Hres & Hat1 & Hcalls).
    unfold resolve_invocation in Hres.
    rewrite Hpending, Hconfirm, Happroved, Hf in Hres.
    apply run_captured_returned in Hres as [-> Hinv'].
    assert (Hsettled : settled active decisions inv').
    { left. destruct Hinv' as [(v & _ & ->)|(e & _ & ->)]; discriminate. }
    assert (Hid : inv_id inv' = inv_id inv).
    { destruct Hinv' as [(v & _ & ->)|(e & _ & ->)]; reflexivity. }
    assert (Hnodup1 : NoDup (invocation_ids msgs1)).
    { rewrite (pass_ids _ _ _ _ _ Hfirst). exact Hnodup. }
    destruct (passes_settled i j inv' n Hsettled _ _ _ _ _ Hnodup1 Hat1 Hothers)
      as [Hat' Hnone].
    rewrite Hid in Hnone. split.
    + unfold calls_for in *. rewrite filter_app, Hnone, app_nil_r.
      exact (Hcalls Hnodup).
    + exists wa. destruct Hinv' as [(v & Hv & ->)|(e & He & ->)].
      * left. exists v. split; [exact Hv|exact Hat'].
      * right. exists e. split; [exact He|exact Hat'].
  - intros Hdenied Hpasses.
    apply passes_succ_returned in Hpasses
      as (msgs1 & cs1 & w1 & cs2 & Hfirst & Hothers & ->).
    destruct (pass_lookup _ _ _ _ _ _ _ _ Hfirst Hat)
      as (inv' & ca & wa & wa' & Hres & Hat1 & Hcalls).
    unfold resolve_invocation in Hres.
    rewrite Hpending, Hconfirm, Hdenied in Hres. injection Hres as <- <- <-.
    assert (Hsettled : settled active decisions (settle inv denied Declined))
      by (left; discriminate).
    assert (Hnodup1 : NoDup (invocation_ids msgs1)).
    { rewrite (pass_ids _ _ _ _ _ Hfirst). exact Hnodup. }
    destruct (passes_settled i j _ n Hsettled _ _ _ _ _ Hnodup1 Hat1 Hothers)
      as [Hat' Hnone].
    cbn in Hnone. split; [|exact Hat'].
    unfold calls_for in *. rewrite filter_app, Hnone, app_nil_r.
    exact (Hcalls Hnodup).
  - intros Hundecided Hpasses.
    assert (Hsettled : settled active decisions inv) by (right; split; assumption).
    destruct (passes_settled i j inv n Hsettled _ _ _ _ _ Hnodup Hat Hpasses)
      as [Hat' Hnone].
    split; assumption.
Qed.

End ResolverProperties.

(** ** The theorems at concrete inputs *)

(** C2 at the weather tool of the registry. *)
Lemma tools_classification_witness :
  @tools sample_services !! "getWeatherInformation" = Some getWeatherInformation
  /\ (classify getWeatherInformation = RequiresConfirmation
      <-> execute getWeatherInformation = None)
  /\ is_Some (executions !! "getWeatherInformation").
Proof.
  assert (Hin : @tools sample_services !! "getWeatherInformation"
                = Some getWeatherInformation) by (vm_compute; reflexivity).
  destruct (@tools_classification sample_services _ _ Hin) as (Hc & _ & He).
  split; [exact Hin|]. split; [exact Hc|]. apply He. reflexivity.
Defined.

(** C1 on two passes over an approved request for the weather, resolved
    with the [executions] table of [tools.ts]. *)
Lemma confirmation_resolution_witness :
  exists msgs' calls w',
    passes sample_active executions sample_decisions 2
      sample_history world0 = (Returned (msgs', calls), w')
    /\ calls_for "call-1" calls
       = [ {| call_id := "call-1"; call_tool := "getWeatherInformation";
              call_args := "Paris" |} ].
Proof.
  eexists _, _, _. split; [vm_compute; reflexivity|].
  refine (proj1 (proj1
    (confirmation_resolution sample_active executions
       sample_decisions sample_history 0 0 sample_invocation 1 world0 _ _ _
       _ _ _ _)
    executions_getWeatherInformation _ _ _)).
  - apply NoDup_singleton.
  - reflexivity.
  - reflexivity.
  - vm_compute; reflexivity.
  - vm_compute; reflexivity.
  - vm_compute; reflexivity.
  - vm_compute; reflexivity.
Defined.

(** C3 on the text [hello], with processes dying after one step, before
    any further step, and after one more step. *)
Lemma ingestion_exactly_once_witness :
  checkpoints world0 = ∅
  /\ trace (@resume sample_services [1; 0; 1] "hello" world0).2
     = [ EvDbInsert "hello"; EvEmbeddingsCreate "hello";
         EvVectorizeUpsert "1" [0.5%float; 0.25%float] ].
Proof.
  split; [reflexivity|].
  refine (proj1 (proj2 (proj1
    (@ingestion_exactly_once sample_services "hello" world0
       [ {| doc_id := 1; doc_text := "hello" |} ]
       {| doc_id := 1; doc_text := "hello" |} []
       [0.5%float; 0.25%float] [] _ _ _) [1; 0; 1]))).
  - reflexivity.
  - reflexivity.
  - reflexivity.
Defined.

(** C4 with a persistence layer that returns no row. *)
Lemma create_record_empty_aborts_witness :
  @d1_insert_returning silent_db_services (docs world0) "hello" = ([], [])
  /\ (@RAGWorkflow_run silent_db_services "hello" world0).1
     = Threw (JsError "Failed to create document").
Proof.
  split; [reflexivity|].
  refine (proj1 (@create_record_empty_aborts silent_db_services "hello" world0 [] _ _ _)).
  - reflexivity.
  - discriminate.
  - reflexivity.
Defined.

(** C10 on a query against an empty vector index. *)
Lemma getRAGTool_reads_first_match_only_witness :
  @embeddings_create sample_services "weather" = [[0.5%float; 0.25%float]]
  /\ exists input,
       (@getRAGTool_execute sample_services "weather" world0).1
       = Returned (@responses_create sample_services input).
Proof.
  split; [reflexivity|].
  destruct (@getRAGTool_reads_first_match_only sample_services "weather" world0
              [0.5%float; 0.25%float] [] eq_refl) as (input & Hret & _).
  exists input. exact Hret.
Defined.

(** C8 for an id that was never registered, and for the id of a delayed
    task after it fired. *)
Lemma cancel_unknown_id_is_reported_witness :
  (cancelScheduledTask_execute "id7" world_with_task).1
  = Returned "Error canceling task id7: ScheduleNotFound: id7"
  /\ (cancelScheduledTask_execute "id0"
        (@fire sample_services sample_task world_with_task).2).1
     = Returned "Error canceling task id0: ScheduleNotFound: id0".
Proof.
  split.
  - refine (proj1 (proj1
      (@cancel_unknown_id_is_reported sample_services "id7" world_with_task) _)).
    intros s Hs. apply list_elem_of_singleton in Hs as ->. discriminate.
  - refine (proj2 (proj2
      (@cancel_unknown_id_is_reported sample_services "id7" world_with_task)
      sample_task _ _ _ _ _)).
    + apply list_elem_of_here.
    + intros s' Hs' _. apply list_elem_of_singleton in Hs'. exact Hs'.
    + discriminate.
    + reflexivity.
    + reflexivity.
Defined.

(** C9 (amended) on the body [{ text: "hello" }]. *)
Lemma post_text_creates_run_witness :
  (@post_text sample_services (JObj [("text", JStr "hello")]) world0).1
  = Returned {| body := "Create note"; status := 201 |}
  /\ workflow_runs (@post_text sample_services (JObj [("text", JStr "hello")]) world0).2
     = [ {| run_id := "id0"; run_text := JStr "hello" |} ].
Proof.
  destruct (proj1 (@post_text_creates_run_for_nonempty_text sample_services
                     [("text", JStr "hello")] world0)
              _ _ _ eq_refl) as (Hret & Hruns & _).
  split; [exact Hret|exact Hruns].
Defined.

(** C9, counterexample: a body whose [text] is the empty string is a
    body with a string [text], yet the endpoint answers 400 and creates no
    run for it. *)
Lemma post_text_empty_string_creates_no_run :
  (@post_text sample_services (JObj [("text", JStr EmptyString)]) world0).1
  = Returned {| body := "Missing text"; status := 400 |}
  /\ ~ exists run,
       workflow_runs (@post_text sample_services
                        (JObj [("text", JStr EmptyString)]) world0).2
       = workflow_runs world0 ++ [run].
Proof.
  split; [reflexivity|]. intros [run Hrun]. discriminate Hrun.
Qed.

(** ** Further properties of [tools.ts] and [server.ts] *)

Section SchedulingTools.
Context `{!Services}.

(** X1: the scheduling tool always returns a message: it never throws,
    so the [throwError] arm is never reached; it adds at most one
    schedule, bound to [executeTask] with the description as payload,
    after the existing ones, and leaves the knowledge store, the
    conversation and the workflow state alone. *)
Theorem scheduleTask_never_throws (when : When) (description : string) (w : World) :
  let r := scheduleTask_execute (when, description) w in
  (exists message, r.1 = Returned message)
  /\ (schedules r.2 = schedules w
      \/ exists s, schedules r.2 = schedules w ++ [s]
                   /\ callback s = "executeTask" /\ payload s = description)
  /\ same_store w r.2.
Proof.
  cbn zeta.
  destruct when as [date|delayInSeconds|cron|].
  - split; [eexists; reflexivity|]. split; [right; eexists; repeat split|repeat split].
  - split; [eexists; reflexivity|]. split; [right; eexists; repeat split|repeat split].
  - unfold scheduleTask_execute, agent_schedule, register, generateId.
    exec_step; cbn.
    destruct (cron_next cron (now w)); cbn.
    + split; [eexists; reflexivity|]. split; [right; eexists; repeat split|repeat split].
    + split; [eexists; reflexivity|]. split; [left; reflexivity|repeat split].
  - split; [eexists; reflexivity|]. split; [left; reflexivity|repeat split].
Qed.


(** The listing tool, run. *)
Lemma getScheduledTasks_run (w : World) :
  getScheduledTasks_execute tt w
  = (Returned match schedules w with
              | [] => inl "No scheduled tasks found."
              | _ :: _ => inr (schedules w)
              end,
     set_trace (trace w ++ [EvGetSchedules]) w).
Proof.
  unfold getScheduledTasks_execute, agent_getSchedules.
  exec_step; cbn. destruct (schedules w); reflexivity.
Qed.

(** X3: the listing tool answers [No scheduled tasks found.] when there
    is no active schedule and the active schedules, in order, otherwise;
    it changes neither the schedules nor the rest of the durable state. *)
Theorem getScheduledTasks_lists (w : World) :
  let r := getScheduledTasks_execute tt w in
  (schedules w = [] -> r.1 = Returned (inl "No scheduled tasks found."))
  /\ (schedules w <> [] -> r.1 = Returned (inr (schedules w)))
  /\ schedules r.2 = schedules w
  /\ same_store w r.2.
Proof.
  cbn zeta. rewrite getScheduledTasks_run. cbn.
  split; [intros ->; reflexivity|].
  split; [|repeat split].
  destruct (schedules w); [intros Hne; destruct Hne; reflexivity|reflexivity].
Qed.

Lemma filter_has_id (taskId : string) (l : list Schedule) :
  List.filter (fun s => negb (has_id taskId s)) l
  = filter (fun s => sched_id s <> taskId) l.
Proof.
  induction l as [|s l IH]; [reflexivity|]. cbn [List.filter].
  unfold has_id at 1. case_bool_decide as Hid; cbn [negb].
  - rewrite filter_cons_False by (intros Hne; exact (Hne Hid)). exact IH.
  - rewrite filter_cons_True by exact Hid. rewrite IH. reflexivity.
Qed.

Lemma existsb_has_id_true (taskId : string) (l : list Schedule) (s : Schedule) :
  s ∈ l -> sched_id s = taskId -> existsb (has_id taskId) l = true.
Proof.
  intros Hin Hid. apply existsb_exists. exists s.
  split; [apply list_elem_of_In, Hin|]. unfold has_id. apply bool_decide_eq_true_2, Hid.
Qed.

(** What cancelling a registered id does. *)
Lemma cancel_present (taskId : string) (w : World) :
  existsb (has_id taskId) (schedules w) = true ->
  let r := cancelScheduledTask_execute taskId w in
  r.1 = Returned ("Task " +:+ taskId +:+ " has been successfully canceled.")
  /\ schedules r.2 = filter (fun s => sched_id s <> taskId) (schedules w).
Proof.
  intros Hpresent. cbn zeta.
  unfold cancelScheduledTask_execute, agent_cancelSchedule.
  exec_step; cbn. rewrite Hpresent; cbn. split; [reflexivity|apply filter_has_id].
Qed.

(** X4: cancelling the id of an active schedule answers with the success
    message and removes the schedules with that id, keeping the others in
    their order; nothing else of the durable state changes. *)
Theorem cancelScheduledTask_removes (taskId : string) (w : World) (s : Schedule) :
  s ∈ schedules w -> sched_id s = taskId ->
  let r := cancelScheduledTask_execute taskId w in
  r.1 = Returned ("Task " +:+ taskId +:+ " has been successfully canceled.")
  /\ schedules r.2 = filter (fun s' => sched_id s' <> taskId) (schedules w)
  /\ same_store w r.2.
Proof.
  intros Hin Hid. cbn zeta.
  pose proof (existsb_has_id_true _ _ _ Hin Hid) as Hpresent.
  destruct (cancel_present taskId w Hpresent) as [Hret Hsched].
  split; [exact Hret|]. split; [exact Hsched|].
  unfold cancelScheduledTask_execute, agent_cancelSchedule.
  exec_step; cbn. rewrite Hpresent; cbn. repeat split.
Qed.


(** X6: when the id drawn for a new delayed task is not carried by an
    active schedule, the task shows up last in the listing tool's answer,
    and cancelling that id answers with the success message and gives back
    the schedules there were before. *)
Theorem schedule_then_cancel_round_trip
    (delayInSeconds : Z) (description : string) (w : World) :
  (forall s, s ∈ schedules w -> sched_id s <> fresh_id (id_counter w)) ->
  let scheduled := scheduleTask_execute (Delayed delayInSeconds, description) w in
  let listed := getScheduledTasks_execute tt scheduled.2 in
  let cancelled := cancelScheduledTask_execute (fresh_id (id_counter w)) scheduled.2 in
  listed.1 = Returned (inr (schedules w ++
               [registered w description (now w + delayInSeconds)
                  (KDelayed delayInSeconds)]))
  /\ cancelled.1 = Returned ("Task " +:+ fresh_id (id_counter w)
                            +:+ " has been successfully canceled.")
  /\ schedules cancelled.2 = schedules w.
Proof.
  intros Hfresh. cbn zeta.
  assert (Hsched : schedules (scheduleTask_execute (Delayed delayInSeconds, description) w).2
                   = schedules w ++ [registered w description (now w + delayInSeconds)
                                       (KDelayed delayInSeconds)]) by reflexivity.
  split.
  - rewrite getScheduledTasks_run. cbn [fst]. rewrite Hsched.
    destruct (schedules w); reflexivity.
  - assert (Hpresent : existsb (has_id (fresh_id (id_counter w)))
              (schedules (scheduleTask_execute (Delayed delayInSeconds, description) w).2)
              = true).
    { rewrite Hsched.
      apply (existsb_has_id_true _ _
               (registered w description (now w + delayInSeconds)
                  (KDelayed delayInSeconds))); [|reflexivity].
      apply elem_of_app. right. apply list_elem_of_here. }
    destruct (cancel_present _ _ Hpresent) as [Hret Hleft].
    split; [exact Hret|]. rewrite Hleft, Hsched, filter_app.
    rewrite filter_cons_False by (intros Hne; apply Hne; reflexivity).
    rewrite filter_nil, app_nil_r.
    clear -Hfresh. induction (schedules w) as [|s l IH]; [reflexivity|].
    rewrite filter_cons_True by (apply Hfresh; left).
    rewrite IH; [reflexivity|]. intros s' Hs'. apply Hfresh. right. exact Hs'.
Qed.

End SchedulingTools.

Section RetrievalAndRegistry.
Context `{!Services}.

(** X7: when the embedding service returns no data for the query, the
    retrieval tool throws a [TypeError] right after that call: the vector
    index, the document table and the model are never asked. *)
Theorem getRAGTool_without_embedding (query : string) (w : World) :
  embeddings_create query = [] ->
  let r := getRAGTool_execute query w in
  (exists message, r.1 = Threw (TypeError message))
  /\ trace r.2 = trace w ++ [EvEmbeddingsCreate query]
  /\ console r.2 = console w.
Proof.
  intros Hnone. cbn zeta. unfold getRAGTool_execute, ai_embeddings_create.
  exec_step; cbn. rewrite Hnone; cbn.
  split; [eexists; reflexivity|]. split; reflexivity.
Qed.


(** The tools that never touch the schedules. *)
Lemma getRAGTool_keeps (query : string) (w : World) :
  let w' := (getRAGTool_execute query w).2 in
  same_store w w' /\ schedules w' = schedules w.
Proof.
  cbn zeta. unfold getRAGTool_execute, ai_embeddings_create, VECTORIZE_query,
    DB_select_by_id, ai_responses_create.
  exec_step; cbn.
  destruct (embeddings_create query) as [|vector others]; cbn; [repeat split|].
  destruct (vectorize_query (vectors w) vector 5) as [[|first rest]|]; cbn;
    [repeat split| |repeat split].
  destruct (match_id first) as [|c id]; cbn; [repeat split|].
  destruct (d1_select_by_id (docs w) (String c id)) as [[|row rows]|]; cbn;
    repeat split.
Qed.

Lemma scheduleTask_keeps (args : When * string) (w : World) :
  same_store w (scheduleTask_execute args w).2.
Proof.
  destruct args as [[date|delayInSeconds|cron|] description];
    try (repeat split; fail).
  unfold scheduleTask_execute, agent_schedule, register, generateId.
  exec_step; cbn. destruct (cron_next cron (now w)); cbn; repeat split.
Qed.

Lemma cancelScheduledTask_keeps (taskId : string) (w : World) :
  same_store w (cancelScheduledTask_execute taskId w).2.
Proof.
  unfold cancelScheduledTask_execute, agent_cancelSchedule.
  exec_step; cbn. destruct (existsb (has_id taskId) (schedules w)); cbn; repeat split.
Qed.

Lemma getScheduledTasks_keeps (w : World) :
  let w' := (getScheduledTasks_execute tt w).2 in
  same_store w w' /\ schedules w' = schedules w.
Proof.
  cbn zeta. unfold getScheduledTasks_execute, agent_getSchedules.
  exec_step; cbn. destruct (schedules w) eqn:Hs; cbn; rewrite ?Hs; repeat split.
Qed.

(** X9: no tool of the registry, and no function of the executions
    table, writes to the document table, the vector index, the persisted
    conversation or the workflow state; and only [scheduleTask] and
    [cancelScheduledTask] can change the schedules. *)
Theorem tools_keep_store (name : string) (w : World) :
  (forall (t : Tool) (f : Params t -> Exec (Output t)) (args : Params t),
     tools !! name = Some t ->
     execute t = Some f ->
     let w' := (f args w).2 in
     same_store w w'
     /\ (name <> "scheduleTask" -> name <> "cancelScheduledTask" ->
         schedules w' = schedules w))
  /\ (forall (f : string -> Exec string) (city : string),
        executions !! name = Some f ->
        let w' := (f city w).2 in
        same_store w w' /\ schedules w' = schedules w).
Proof.
  split.
  - intros t f args Hin Hf. cbn zeta. apply elem_of_list_to_map_2 in Hin.
    unfold tool_entries in Hin.
    repeat (apply elem_of_cons in Hin as [Hin|Hin];
            [injection Hin as -> ->; cbn in *; try discriminate;
             injection Hf as <-|]).
    + split; [repeat split|reflexivity].
    + split; [apply scheduleTask_keeps|]. intros Hne; destruct Hne; reflexivity.
    + destruct args. split; [apply getScheduledTasks_keeps|].
      intros _ _. apply getScheduledTasks_keeps.
    + split; [apply cancelScheduledTask_keeps|].
      intros _ Hne; destruct Hne; reflexivity.
    + split; [apply getRAGTool_keeps|]. intros _ _. apply getRAGTool_keeps.
    + apply elem_of_nil in Hin. destruct Hin.
  - intros f city Hf. unfold executions in Hf.
    apply lookup_singleton_Some in Hf as [_ <-]. repeat split.
Qed.

(** X10: in the merged tool set a dynamically discovered tool replaces
    the static tool of the same name, every other static tool is kept as
    it is, and no static name is lost. *)
Theorem allTools_last_wins (mcp_tools : gmap string Tool) (name : string) :
  (forall t, mcp_tools !! name = Some t -> allTools mcp_tools !! name = Some t)
  /\ (mcp_tools !! name = None -> allTools mcp_tools !! name = tools !! name)
  /\ (is_Some (tools !! name) -> is_Some (allTools mcp_tools !! name)).
Proof.
  unfold allTools. split; [|split].
  - intros t Ht. apply lookup_union_Some_l. exact Ht.
  - intros Hnone. apply lookup_union_r. exact Hnone.
  - intros Hstatic. apply lookup_union_is_Some. right. exact Hstatic.
Qed.

End RetrievalAndRegistry.

Section ServerExtras.
Context `{!Services}.

(** X11: the endpoint does not check that [text] is a string.  For an
    object body it creates one run, carrying the value of [text] as it
    is, and answers 201 whenever that value is truthy: a non-empty string,
    but also a non-zero number, [true], an array or an object; for
    [undefined], [null], [false], [0] and the empty string it answers 400
    and changes nothing. *)
Theorem post_text_any_truthy_text (fields : list (string * JsValue)) (w : World) :
  let text := default JUndefined
                (snd <$> List.find (fun kv => String.eqb kv.1 "text") fields) in
  let r := post_text (JObj fields) w in
  let created := (Returned {| body := "Create note"; status := 201 |},
                  set_workflow_runs
                    (workflow_runs w ++
                     [ {| run_id := fresh_id (id_counter w); run_text := text |} ])
                    (set_id_counter (S (id_counter w))
                       (set_trace (trace w ++ [EvWorkflowCreate text]) w))) in
  let refused := (Returned {| body := "Missing text"; status := 400 |}, w) in
  match text with
  | JUndefined | JNull | JBool false => r = refused
  | JBool true | JArr _ | JObj _ => r = created
  | JNum n => if decide (n = 0%Z) then r = refused else r = created
  | JStr s => if decide (s = EmptyString) then r = refused else r = created
  end.
Proof.
  cbn zeta. unfold post_text, destructure, RAG_WORKFLOW_create, generateId.
  exec_step; cbn.
  destruct (default JUndefined _) as [| |[|]|n|s|items|fields']; cbn;
    try reflexivity.
  - destruct (decide (n = 0%Z)) as [->|Hn]; [reflexivity|].
    destruct (Z.eqb_spec n 0); [contradiction|reflexivity].
  - destruct s; cbn; reflexivity.
Qed.

(** X12: a body that is [null] makes the handler throw a [TypeError]
    instead of answering 400; a body that is a boolean, a number, a string
    or an array is answered 400; in both cases no run is created. *)
Theorem post_text_non_object_body (w : World) :
  (exists message, post_text JNull w = (Threw (TypeError message), w))
  /\ (forall body,
        match body with JNull | JUndefined | JObj _ => False | _ => True end ->
        post_text body w
        = (Returned {| body := "Missing text"; status := 400 |}, w)).
Proof.
  split; [eexists; reflexivity|].
  intros [| |b|n|s|items|fields] Hbody; try destruct Hbody; reflexivity.
Qed.


(** X14: executing the run when its three steps are checkpointed makes
    no call and changes nothing: every effect of [run] sits inside a
    step. *)
Theorem RAGWorkflow_run_completed_is_noop
    (text : string) (w : World) (row : DocumentRow) (vector : Embedding) :
  checkpoints w !! "create database record" = Some (SvRecord row) ->
  checkpoints w !! "generate embedding" = Some (SvEmbedding vector) ->
  checkpoints w !! "insert vector" = Some SvVoid ->
  RAGWorkflow_run text w = (Returned tt, w).
Proof.
  intros H1 H2 H3. unfold RAGWorkflow_run, step_do.
  exec_step; cbn. rewrite H1; cbn. rewrite H2; cbn. rewrite H3; cbn. reflexivity.
Qed.

(** X15: when the insert returns a row and the embedding service returns
    no data, the run throws a [TypeError] after exactly the insert and the
    embedding request; the row is checkpointed, nothing is upserted; and a
    later execution of the run, whatever the collaborators then answer,
    never inserts again. *)
Theorem RAGWorkflow_run_embedding_failure
    (text : string) (w : World) (table : list DocumentRow)
    (row : DocumentRow) (rest : list DocumentRow) :
  checkpoints w = ∅ ->
  crash_budget w = None ->
  d1_insert_returning (docs w) text = (table, row :: rest) ->
  embeddings_create text = [] ->
  let r := RAGWorkflow_run text w in
  (exists message, r.1 = Threw (TypeError message))
  /\ trace r.2 = trace w ++ [EvDbInsert text; EvEmbeddingsCreate text]
  /\ checkpoints r.2 = {[ "create database record" := SvRecord row ]}
  /\ docs r.2 = table
  /\ vectors r.2 = vectors w
  /\ forall (retry : Services) (budget : option nat),
       exists new,
         trace (@attempt retry budget text r.2).2 = trace r.2 ++ new
         /\ forall text', EvDbInsert text' ∉ new.
Proof.
  intros Hfresh Halive Hins Hnone. cbn zeta.
  assert (Hrun : RAGWorkflow_run text w
    = (Threw (TypeError "Cannot read properties of undefined (reading 'embedding')"),
       set_trace (trace w ++ [EvDbInsert text; EvEmbeddingsCreate text])
         (set_checkpoints {[ "create database record" := SvRecord row ]}
            (set_docs table w)))).
  { unfold RAGWorkflow_run, step_do, crash_point, DB_insert_returning,
      ai_embeddings_create.
    exec_step.
    repeat first [ rewrite Hfresh | rewrite Halive | rewrite Hins | rewrite Hnone
                 | progress simplify_map_eq | progress cbn ].
    rewrite <- app_assoc. reflexivity. }
  rewrite Hrun; cbn.
  split; [eexists; reflexivity|]. repeat split.
  intros retry budget.
  destruct (@attempt_never_repeats retry text budget
              (set_trace (trace w ++ [EvDbInsert text; EvEmbeddingsCreate text])
                 (set_checkpoints {[ "create database record" := SvRecord row ]}
                    (set_docs table w)))) as (new & Htr & Hnew).
  exists new. split; [exact Htr|].
  intros text' Hin. rewrite Forall_forall in Hnew. apply (Hnew _ Hin).
  cbn. unfold step_complete; cbn. rewrite lookup_singleton_eq. cbn. eauto.
Qed.

End ServerExtras.

Section ServerExtras2.
Context `{!Services}.

(** X16: whatever the collaborators answer and wherever the process
    dies, an execution of a fresh run makes its calls in the order insert,
    embedding request, upsert, stopping anywhere: an embedding is
    requested only after the insert returned a row, and an upsert is made
    only with the id of that row and the embedding returned; the vector
    index changes only in an execution that returns. *)
Theorem RAGWorkflow_run_calls_in_order
    (text : string) (budget : option nat) (w : World) :
  checkpoints w = ∅ ->
  let results := (d1_insert_returning (docs w) text).2 in
  let r := attempt budget text w in
  exists new,
    trace r.2 = trace w ++ new
    /\ (new = []
        \/ new = [EvDbInsert text]
        \/ exists row,
             head results = Some row
             /\ (new = [EvDbInsert text; EvEmbeddingsCreate text]
                 \/ exists vector,
                      head (embeddings_create text) = Some vector
                      /\ new = [ EvDbInsert text; EvEmbeddingsCreate text;
                                 EvVectorizeUpsert (pretty (doc_id row)) vector ]
                      /\ vectors r.2 = <[pretty (doc_id row) := vector]> (vectors w)))
    /\ (vectors r.2 = vectors w \/ r.1 = Returned tt).
Proof.
  intros Hfresh. cbn zeta.
  unfold attempt, RAGWorkflow_run, step_do, crash_point, DB_insert_returning,
    ai_embeddings_create, VECTORIZE_upsert.
  exec_step.
  destruct (d1_insert_returning (docs w) text) as [table [|row rest]] eqn:Hins;
    destruct (embeddings_create text) as [|vector others] eqn:Hemb;
    destruct budget as [[|[|[|b]]]|];
    repeat first [ rewrite Hfresh | rewrite Hins | rewrite Hemb
                 | rewrite lookup_insert_ne by discriminate | rewrite lookup_empty | progress cbn ];
    rewrite <- ?app_assoc; cbn;
    (eexists; split; [first [reflexivity | symmetry; apply app_nil_r]|]);
    (split; [|first [left; reflexivity | right; reflexivity]]);
    first [ left; reflexivity
          | right; left; reflexivity
          | right; right; eexists; split; [reflexivity|]; left; reflexivity
          | right; right; eexists; split; [reflexivity|]; right;
            eexists; split; [reflexivity|]; split; reflexivity ].
Qed.

End ServerExtras2.

(** ** The further properties at concrete inputs *)


(** X4 on the one task of [world_with_task]. *)
Lemma cancelScheduledTask_removes_witness :
  sample_task ∈ schedules world_with_task
  /\ schedules (cancelScheduledTask_execute "id0" world_with_task).2 = [].
Proof.
  assert (Hin : sample_task ∈ schedules world_with_task) by apply list_elem_of_here.
  split; [exact Hin|].
  exact (proj1 (proj2 (cancelScheduledTask_removes "id0" world_with_task
                         sample_task Hin eq_refl))).
Defined.

(** X6 on a second task, scheduled in [world_with_task]. *)
Lemma schedule_then_cancel_round_trip_witness :
  schedules
    (cancelScheduledTask_execute "id1"
       (@scheduleTask_execute sample_services (Delayed 60, "stretch")
          world_with_task).2).2
  = [sample_task].
Proof.
  refine (proj2 (proj2 (@schedule_then_cancel_round_trip sample_services 60
                          "stretch" world_with_task _))).
  intros s Hs. apply list_elem_of_singleton in Hs as ->. discriminate.
Defined.

(** X7 with an embedding service that returns no data. *)
Lemma getRAGTool_without_embedding_witness :
  @embeddings_create no_embedding_services "weather" = []
  /\ trace (@getRAGTool_execute no_embedding_services "weather" world0).2
     = [EvEmbeddingsCreate "weather"].
Proof.
  split; [reflexivity|].
  exact (proj1 (proj2 (@getRAGTool_without_embedding no_embedding_services
                         "weather" world0 eq_refl))).
Defined.


(** X9 on the local time tool. *)
Lemma tools_keep_store_witness :
  @tools sample_services !! "getLocalTime" = Some getLocalTime
  /\ same_store world_with_note (getLocalTime_execute "Oslo" world_with_note).2.
Proof.
  assert (Hin : @tools sample_services !! "getLocalTime" = Some getLocalTime)
    by (vm_compute; reflexivity).
  split; [exact Hin|].
  exact (proj1 (proj1 (@tools_keep_store sample_services "getLocalTime"
                         world_with_note)
                  getLocalTime getLocalTime_execute "Oslo" Hin eq_refl)).
Defined.

(** X10 with a discovered tool that takes the weather tool's name. *)
Lemma allTools_last_wins_witness :
  @allTools sample_services sample_mcp_tools !! "getWeatherInformation"
  = Some getLocalTime
  /\ @allTools sample_services sample_mcp_tools !! "scheduleTask"
     = @tools sample_services !! "scheduleTask".
Proof.
  split.
  - refine (proj1 (@allTools_last_wins sample_services sample_mcp_tools
                     "getWeatherInformation") getLocalTime _).
    vm_compute; reflexivity.
  - refine (proj1 (proj2 (@allTools_last_wins sample_services sample_mcp_tools
                            "scheduleTask")) _).
    vm_compute; reflexivity.
Defined.


(** X14 on the world in which [hello] has been ingested. *)
Lemma RAGWorkflow_run_completed_is_noop_witness :
  @RAGWorkflow_run sample_services "hello" world_with_note
  = (Returned tt, world_with_note).
Proof.
  apply (@RAGWorkflow_run_completed_is_noop sample_services "hello" world_with_note
           {| doc_id := 1; doc_text := "hello" |} [0.5%float; 0.25%float]);
    vm_compute; reflexivity.
Defined.

(** X15 with an embedding service that returns no data. *)
Lemma RAGWorkflow_run_embedding_failure_witness :
  trace (@RAGWorkflow_run no_embedding_services "hello" world0).2
  = [EvDbInsert "hello"; EvEmbeddingsCreate "hello"].
Proof.
  refine (proj1 (proj2 (@RAGWorkflow_run_embedding_failure no_embedding_services
                          "hello" world0 [ {| doc_id := 1; doc_text := "hello" |} ]
                          {| doc_id := 1; doc_text := "hello" |} [] _ _ _ _)));
    reflexivity.
Defined.

(** X16 on a process that dies after two steps. *)
Lemma RAGWorkflow_run_calls_in_order_witness :
  checkpoints world0 = ∅
  /\ exists new,
       trace (@attempt sample_services (Some 2) "hello" world0).2
       = trace world0 ++ new
       /\ length new <= 3.
Proof.
  split; [reflexivity|].
  destruct (@RAGWorkflow_run_calls_in_order sample_services "hello" (Some 2) world0
              eq_refl) as (new & Htr & Hshape & _).
  exists new. split; [exact Htr|].
  destruct Hshape as [->|[->|(row & _ & [->|(vector & _ & -> & _)])]]; cbn; lia.
Defined.
